(** * DataReader: building and splitting sparse user-rating matrices

    A shallow embedding of [datasets/DataReader.py].

    Conventions of the embedding.
    - Python [float] and NumPy [float32] values are idealised as rationals
      ([Q]); the code only copies, adds and compares them.
    - A Python exception is a value of [PyError]; a call that may raise
      returns a [Result].
    - What the file takes from outside is a Section variable, constrained by
      its documented contract where one is used: NumPy's process-wide
      random generator, [np.argsort], the built-ins [int] and [float] on
      strings, and the server behind [requests.get].
    - An [array.array('I')] is a list of integers in 0..2^32-1; a [dict]
      is a finite map; a file is the list of its lines.
    - The [print] calls and the optional persistence to disk ([save_local])
      have no influence on the returned values and are left out, except
      where a [print] itself raises. *)

From Stdlib Require Import ZArith QArith Qround Lia Ascii String.
From stdpp Require Import base list gmap strings sorting.

Local Open Scope string_scope.
Local Open Scope list_scope.

(** ** Python exceptions *)

Inductive PyError : Type :=
| AttributeError
| TypeError
| ValueError
| KeyError
| IndexError
| OverflowError
| FileNotFoundError
| BadZipFile
| ConnectionError.

Inductive Result (A : Type) : Type :=
| Ok (a : A)
| Raise (e : PyError).

Arguments Ok {A} a.
Arguments Raise {A} e.

#[global] Instance Result_ret : MRet Result := fun A a => Ok a.

#[global] Instance Result_bind : MBind Result := fun A B k r =>
  match r with
  | Ok a => k a
  | Raise e => Raise e
  end.

(** ** Python built-ins *)

(** [d[k]] on a [dict] with string keys. *)
Definition dict_getitem {V} (d : gmap string V) (k : string) : Result V :=
  match d !! k with
  | Some v => Ok v
  | None => Raise KeyError
  end.

(** [l[i]] on a list; a negative index counts from the end. *)
Definition list_getitem {A} (l : list A) (i : Z) : Result A :=
  let n := Z.of_nat (length l) in
  let j := if (i <? 0)%Z then (n + i)%Z else i in
  if ((0 <=? j) && (j <? n))%Z then
    match l !! Z.to_nat j with
    | Some x => Ok x
    | None => Raise IndexError
    end
  else Raise IndexError.

(** [s.split(sep)] for a separator given explicitly: the pieces of [s]
    between the non-overlapping occurrences of [sep], left to right. *)
Fixpoint split_from (sep : string) (skip : nat) (cur : string) (s : string)
  : list string :=
  match s with
  | EmptyString => [cur]
  | String c s' =>
      match skip with
      | S n => split_from sep n cur s'
      | O =>
          if String.prefix sep s
          then cur :: split_from sep (String.length sep - 1) EmptyString s'
          else split_from sep 0 (String.append cur (String c EmptyString)) s'
      end
  end.

Definition str_split (s sep : string) : Result (list string) :=
  if String.eqb sep EmptyString then Raise ValueError
  else Ok (split_from sep 0 EmptyString s).

(** [a.append(v)] on an [array.array('I')]: items are unsigned 32-bit. *)
Definition array_I_append (a : list Z) (v : Z) : Result (list Z) :=
  if ((0 <=? v) && (v <? 2 ^ 32))%Z then Ok (a ++ [v]) else Raise OverflowError.

(** ** Files and the network *)

(** Paths are lists of components. *)
Abbreviation path := (list string).

(** A member of a zip archive: its lines, or [None] when its stored data
    does not pass the integrity check on extraction. *)
Abbreviation zip_member := (option (list string)).

Inductive FileContent : Type :=
| TextFile (lines : list string)
| ZipArchive (members : gmap path zip_member)
| NotAnArchive.

Inductive IOEvent : Type :=
| HttpGet (url : string)
| FileOpened (p : path)
| FileWritten (p : path)
| FileRemoved (p : path).

Record World : Type := mk_World {
  files : gmap path FileContent;
  events : list IOEvent
}.

(** What [requests.get(url, stream=True)] gives: a status code and the body
    received; [complete = false] when the connection breaks while the body
    is streamed, after the chunks received so far have been written. *)
Record Response : Type := mk_Response {
  status_code : Z;
  body : FileContent;
  complete : bool
}.

(** Computations that read and write the world and may raise. *)
Definition IO (A : Type) : Type := World -> Result A * World.

#[global] Instance IO_ret : MRet IO := fun A a w => (Ok a, w).

#[global] Instance IO_bind : MBind IO := fun A B k m w =>
  match m w with
  | (Ok a, w') => k a w'
  | (Raise e, w') => (Raise e, w')
  end.

Definition raise {A} (e : PyError) : IO A := fun w => (Raise e, w).

Definition emit (ev : IOEvent) : IO unit :=
  fun w => (Ok tt, {| files := files w; events := events w ++ [ev] |}).

Definition write_file (p : path) (c : FileContent) : IO unit :=
  fun w => (Ok tt, {| files := <[p := c]> (files w);
                      events := events w ++ [FileWritten p] |}).

(** [os.remove(p)] *)
Definition os_remove (p : path) : IO unit :=
  fun w =>
    match files w !! p with
    | Some _ => (Ok tt, {| files := delete p (files w);
                           events := events w ++ [FileRemoved p] |})
    | None => (Raise FileNotFoundError, w)
    end.

(** [zipfile.ZipFile(p)]: opens the archive and reads its directory. *)
Definition ZipFile (p : path) : IO (gmap path zip_member) :=
  fun w =>
    match files w !! p with
    | None => (Raise FileNotFoundError, w)
    | Some c =>
        let w' := {| files := files w; events := events w ++ [FileOpened p] |} in
        match c with
        | ZipArchive members => (Ok members, w')
        | _ => (Raise BadZipFile, w')
        end
    end.

(** [zfile.extract(member, dir)]: writes the member under [dir] and returns
    the path written. *)
Definition zip_extract (zfile : gmap path zip_member) (member dir : path) : IO path :=
  match zfile !! member with
  | None => raise KeyError
  | Some None => raise BadZipFile
  | Some (Some lines) =>
      _ ← write_file (dir ++ member) (TextFile lines); mret (dir ++ member)
  end.

(** [os.path.dirname(p)] *)
Definition dirname (p : path) : path := removelast p.

(** ** NumPy array helpers *)

(** [a[mask]]: boolean-mask indexing. *)
Fixpoint mask_select {A} (a : list A) (mask : list bool) : list A :=
  match a, mask with
  | x :: a', b :: mask' =>
      if b then x :: mask_select a' mask' else mask_select a' mask'
  | _, _ => []
  end.

(** [a == x] and [a != x], element-wise. *)
Definition np_eq {A} `{EqDecision A} (a : list A) (x : A) : list bool :=
  map (fun y => bool_decide (y = x)) a.

Definition np_ne {A} `{EqDecision A} (a : list A) (x : A) : list bool :=
  map (fun y => negb (bool_decide (y = x))) a.

(** [np.unique(a)]: the distinct values, sorted. *)
Definition np_unique (a : list Z) : list Z := merge_sort Z.le (remove_dups a).

(** The counts of [np.unique(a, return_counts=True)]. *)
Definition np_unique_counts (a : list Z) : list nat :=
  map (fun x => count_occ Z.eq_dec a x) (np_unique a).

(** [np.frombuffer(a, dtype=np.int32)] on the buffer of an
    [array.array('I')]: each unsigned 32-bit item is read as signed. *)
Definition frombuffer_int32 (a : list Z) : list Z :=
  map (fun x => if (x <? 2 ^ 31)%Z then x else (x - 2 ^ 32)%Z) a.

(** [a[idx]] with an array of positions. *)
Definition take_at (a : list Z) (idx : list nat) : list Z :=
  map (fun i => nth i a 0%Z) idx.

(** [np.isin(a, b)] *)
Definition np_isin (a b : list Z) : list bool :=
  map (fun x => bool_decide (x ∈ b)) a.

(** [np.ones(n)] *)
Definition np_ones (n : nat) : list Q := replicate n 1%Q.

(** [dict(zip(keys, range(0, len(keys))))]; the keys it is given are
    distinct. *)
Definition dict_zip_range (keys : list Z) : gmap Z nat :=
  list_to_map (zip keys (seq 0 (length keys))).

(** [pd.Series(a).map(d).values]: [None] is the NaN of a value that is not
    a key of [d]. *)
Definition series_map (d : gmap Z nat) (a : list Z) : list (option nat) :=
  map (fun x => d !! x) a.

(** [int(np.floor(n * r))] *)
Definition floor_mul (n : nat) (r : Q) : nat :=
  Z.to_nat (Qfloor (inject_Z (Z.of_nat n) * r)).

(** Python's [sum] over a list of floats. *)
Definition py_sum (l : list Q) : Q := fold_left Qplus l 0%Q.

(** ** Sparse matrices *)

(** [scipy.sparse.coo_matrix]: three parallel arrays and a shape. *)
Record coo_matrix : Type := mk_coo {
  data : list Q;
  row : list nat;
  col : list nat;
  shape : nat * nat
}.

(** A stored entry: its coordinates and its value. *)
Abbreviation entry := ((nat * nat) * Q)%type.

Definition coo_entries (M : coo_matrix) : list entry :=
  zip (zip (row M) (col M)) (data M).

(** [M.nnz] of a COO matrix: the number of stored values. *)
Definition nnz (M : coo_matrix) : nat := length (data M).

(** The three arrays of a COO matrix have one length. *)
Definition coo_wf (M : coo_matrix) : Prop :=
  length (row M) = length (data M) /\ length (col M) = length (data M).

(** [scipy.sparse.csr_matrix] in canonical form, read as its stored
    entries in row-major order, columns ascending inside a row. *)
Record csr_matrix : Type := mk_csr {
  csr_entries : list entry;
  csr_shape : nat * nat
}.

Definition csr_nnz (C : csr_matrix) : nat := length (csr_entries C).

Definition coord_lt (a b : nat * nat) : Prop :=
  a.1 < b.1 \/ (a.1 = b.1 /\ a.2 < b.2).

#[global] Instance coord_lt_dec a b : Decision (coord_lt a b).
Proof. unfold coord_lt. apply _. Defined.

(** One step of the conversion to CSR: an entry goes to its sorted
    position; an entry at coordinates already stored is summed into the
    stored one ([sum_duplicates]). *)
Fixpoint csr_insert (e : entry) (l : list entry) : list entry :=
  match l with
  | [] => [e]
  | e' :: l' =>
      if decide (e.1 = e'.1) then (e'.1, (e'.2 + e.2)%Q) :: l'
      else if decide (coord_lt e.1 e'.1) then e :: l
      else e' :: csr_insert e l'
  end.

Definition canonical (es : list entry) : list entry :=
  fold_left (fun acc e => csr_insert e acc) es [].

(** [M.tocsr()] *)
Definition tocsr (M : coo_matrix) : csr_matrix :=
  {| csr_entries := canonical (coo_entries M); csr_shape := shape M |}.

(** [C.tocoo()] *)
Definition tocoo (C : csr_matrix) : coo_matrix :=
  {| data := map snd (csr_entries C);
     row := map (fun e : entry => e.1.1) (csr_entries C);
     col := map (fun e : entry => e.1.2) (csr_entries C);
     shape := csr_shape C |}.

(** [C.sum(axis=1).A1]: one sum of stored values per row. *)
Definition row_sum (C : csr_matrix) (i : nat) : Q :=
  py_sum (map snd (List.filter (fun e : entry => Nat.eqb e.1.1 i) (csr_entries C))).

Definition sum_axis1 (C : csr_matrix) : list Q :=
  map (row_sum C) (seq 0 (csr_shape C).1).

(** [(v < t).nonzero()[0]]: the indices at which the comparison holds. *)
Definition nonzero_lt (v : list Q) (t : Z) : list nat :=
  map fst (List.filter (fun p : nat * Q => match Qcompare p.2 (inject_Z t) with Lt => true | _ => false end)
                       (zip (seq 0 (length v)) v)).

(** [L[user_mask, :] = 0.0] on the LIL copy of the matrix. *)
Definition set_rows_zero (user_mask : list nat) (C : csr_matrix) : csr_matrix :=
  {| csr_entries :=
       map (fun e : entry => if bool_decide (e.1.1 ∈ user_mask) then (e.1, 0%Q) else e)
           (csr_entries C);
     csr_shape := csr_shape C |}.

(** [C.eliminate_zeros()] *)
Definition eliminate_zeros (C : csr_matrix) : csr_matrix :=
  {| csr_entries := List.filter (fun e : entry => negb (Qeq_bool e.2 0)) (csr_entries C);
     csr_shape := csr_shape C |}.

(** [sps.coo_matrix((URM.data[m], (URM.row[m], URM.col[m])), shape=shape)] *)
Definition coo_select (URM : coo_matrix) (m : list bool) : coo_matrix :=
  {| data := mask_select (data URM) m;
     row := mask_select (row URM) m;
     col := mask_select (col URM) m;
     shape := shape URM |}.

(** [sps.coo_matrix((data, (rows, cols)), shape=shape)] on index arrays
    that come out of a [Series.map]: an index that is NaN is rejected. *)
Definition sps_coo_matrix (data : list Q) (rows cols : list (option nat))
    (shape : nat * nat) : Result coo_matrix :=
  match mapM id rows, mapM id cols with
  | Some coo_rows, Some coo_cols => Ok (mk_coo data coo_rows coo_cols shape)
  | _, _ => Raise ValueError
  end.

(** The value of the matrix at a coordinate: the sum of the values stored
    there. *)
Fixpoint value_at (es : list entry) (c : nat * nat) : Q :=
  match es with
  | [] => 0%Q
  | e :: es' => ((if decide (e.1 = c) then e.2 else 0) + value_at es' c)%Q
  end.

(** The sum of [f] over a list, in the rationals. *)
Definition sum_Q_with {A} (f : A -> Q) (l : list A) : Q :=
  foldr (fun x acc => (f x + acc)%Q) 0%Q l.

Definition swap_entry (e : entry) : entry := ((e.1.2, e.1.1), e.2).

(** [C.T.tocsr()] of a CSR matrix. *)
Definition csr_transpose (C : csr_matrix) : csr_matrix :=
  {| csr_entries := canonical (swap_entry <$> csr_entries C);
     csr_shape := ((csr_shape C).2, (csr_shape C).1) |}.

(** [np.random.choice] checks its [p] argument: one probability per
    element of [a], none negative, summing to one. *)
Definition is_probability_vector (n : nat) (p : list Q) : Prop :=
  length p = n /\ Forall (fun x => (0 <= x)%Q) p /\ (py_sum p == 1)%Q.

(** ** The reader object *)

(** The attributes a dataset subclass provides. *)
Record Dataset : Type := mk_Dataset {
  DATASET_NAME : string;
  ds_url : string;
  ds_data_file : path;
  ds_dataset_dir : path;
  ds_all_datasets_dir : path
}.

(** The keyword arguments of the constructor. *)
Record InitArgs : Type := mk_InitArgs {
  kw_use_cols : gmap string Z;
  kw_split_ratio : list Q;
  kw_stratified_on : string;
  kw_header : bool;
  kw_delim : string;
  kw_implicit : bool;
  kw_remove_top_pop : Q;
  kw_use_local : bool;
  kw_force_rebuild : bool;
  kw_save_local : bool;
  kw_min_ratings : Z;
  kw_verbose : bool;
  kw_seed : Z
}.

(** The dictionary [self.config]. *)
Record Config : Type := mk_Config {
  cfg_use_cols : gmap string Z;
  cfg_split_ratio : list Q;
  cfg_stratified_on : string;
  cfg_header : bool;
  cfg_delim : string;
  cfg_implicit : bool;
  cfg_remove_top_pop : Q;
  cfg_seed : Z
}.

(** The attributes of [self]; the ones set by methods are [None] until
    then. *)
Record DataReader : Type := mk_DataReader {
  dataset : Dataset;
  use_local : bool;
  force_rebuild : bool;
  save_local : bool;
  min_ratings : Z;
  verbose : bool;
  use_cols : gmap string Z;
  split_ratio : list Q;
  stratified_on : string;
  header : bool;
  delimiter : string;
  remove_top_pop : Q;
  implicit : bool;
  config : Config;
  ratings_file : option path;
  URM : option coo_matrix;
  row_to_user : option (gmap Z nat);
  col_to_item : option (gmap Z nat);
  URM_train : option csr_matrix;
  URM_test : option csr_matrix;
  URM_validation : option csr_matrix
}.

Definition set_ratings_file (self : DataReader) (p : path) : DataReader :=
  mk_DataReader (dataset self) (use_local self) (force_rebuild self) (save_local self)
    (min_ratings self) (verbose self) (use_cols self) (split_ratio self)
    (stratified_on self) (header self) (delimiter self) (remove_top_pop self)
    (implicit self) (config self) (Some p) (URM self) (row_to_user self)
    (col_to_item self) (URM_train self) (URM_test self) (URM_validation self).

Definition set_built (self : DataReader) (M : coo_matrix) (r2u c2i : gmap Z nat)
  : DataReader :=
  mk_DataReader (dataset self) (use_local self) (force_rebuild self) (save_local self)
    (min_ratings self) (verbose self) (use_cols self) (split_ratio self)
    (stratified_on self) (header self) (delimiter self) (remove_top_pop self)
    (implicit self) (config self) (ratings_file self) (Some M) (Some r2u)
    (Some c2i) (URM_train self) (URM_test self) (URM_validation self).

Definition set_splits (self : DataReader) (tr te va : csr_matrix) : DataReader :=
  mk_DataReader (dataset self) (use_local self) (force_rebuild self) (save_local self)
    (min_ratings self) (verbose self) (use_cols self) (split_ratio self)
    (stratified_on self) (header self) (delimiter self) (remove_top_pop self)
    (implicit self) (config self) (ratings_file self) (URM self) (row_to_user self)
    (col_to_item self) (Some tr) (Some te) (Some va).

(** [DataReader.get_URM_train] *)
Definition get_URM_train (self : DataReader) (transposed : bool) : Result csr_matrix :=
  match URM_train self with
  | Some C => Ok (if transposed then csr_transpose C else C)
  | None => Raise AttributeError
  end.

(** [DataReader.get_URM_test] *)
Definition get_URM_test (self : DataReader) (transposed : bool) : Result csr_matrix :=
  match URM_test self with
  | Some C => Ok (if transposed then csr_transpose C else C)
  | None => Raise AttributeError
  end.

(** [DataReader.get_URM_validation] *)
Definition get_URM_validation (self : DataReader) (transposed : bool)
  : Result csr_matrix :=
  match URM_validation self with
  | Some C => Ok (if transposed then csr_transpose C else C)
  | None => Raise AttributeError
  end.

(** ** A concrete generator

    A generator whose state is the tape of the raw draws still to come;
    a draw [i] selects element [i mod len(a)], and an exhausted tape
    yields zeros.  It checks its arguments as [np.random.choice] does. *)

Definition is_probability_vectorb (n : nat) (p : list Q) : bool :=
  Nat.eqb (length p) n && forallb (Qle_bool 0) p && Qeq_bool (py_sum p) 1.

Definition tape_choice (A : Type) (g : list nat) (a : list A)
    (p : option (list Q)) (size : nat) : option (list A * list nat) :=
  if match p with Some q => is_probability_vectorb (length a) q | None => true end then
    match a with
    | [] => match size with 0 => Some ([], g) | S _ => None end
    | d :: _ =>
        Some (map (fun i => nth (i mod length a) a d) (take size (g ++ replicate size 0)),
              drop size g)
    end
  else None.

(** ** Concrete [argsort], [int] and [float]

    A sort of the positions by their values, and the built-ins on plain
    decimal notation (optional sign, digits, optional fraction, blanks
    around). *)

Definition key_le (a : list nat) (i j : nat) : Prop := nth i a 0 <= nth j a 0.

#[global] Instance key_le_dec a i j : Decision (key_le a i j).
Proof. unfold key_le. apply _. Defined.

Definition argsort_merge (a : list nat) : list nat :=
  merge_sort (key_le a) (seq 0 (length a)).

Definition is_space (c : ascii) : bool :=
  bool_decide (c ∈ [" "%char; "009"%char; "010"%char; "013"%char]).

Fixpoint lstrip (l : list ascii) : list ascii :=
  match l with
  | c :: l' => if is_space c then lstrip l' else l
  | [] => []
  end.

Definition strip (s : string) : list ascii :=
  reverse (lstrip (reverse (lstrip (list_ascii_of_string s)))).

Definition digit (c : ascii) : option Z :=
  let n := Z.of_nat (nat_of_ascii c) in
  if ((48 <=? n) && (n <=? 57))%Z then Some (n - 48)%Z else None.

Fixpoint digits (acc : Z) (l : list ascii) : option Z :=
  match l with
  | [] => Some acc
  | c :: l' =>
      match digit c with
      | Some d => digits (10 * acc + d)%Z l'
      | None => None
      end
  end.

Definition signed {A} (neg : A -> A) (l : list ascii)
    (magnitude : list ascii -> option A) : option A :=
  match l with
  | "-"%char :: l' => neg <$> magnitude l'
  | "+"%char :: l' => magnitude l'
  | _ => magnitude l
  end.

Definition dec_int (s : string) : Result Z :=
  match signed Z.opp (strip s)
               (fun l => match l with
                         | [] => None
                         | _ => digits 0 l
                         end) with
  | Some z => Ok z
  | None => Raise ValueError
  end.

Fixpoint split_dot (l : list ascii) : list ascii * option (list ascii) :=
  match l with
  | [] => ([], None)
  | c :: l' =>
      if bool_decide (c = "."%char) then ([], Some l')
      else let '(i, f) := split_dot l' in (c :: i, f)
  end.

Definition dec_float (s : string) : Result Q :=
  match signed Qopp (strip s)
               (fun l =>
                  let '(i, f) := split_dot l in
                  let f := default [] f in
                  match i ++ f with
                  | [] => None
                  | _ =>
                      n ← digits 0 (i ++ f);
                      Some (Qred (n # Z.to_pos (10 ^ Z.of_nat (length f))))
                  end) with
  | Some q => Ok q
  | None => Raise ValueError
  end.

(** ** The constructor's defaults and a sample dataset *)

Definition default_InitArgs : InitArgs :=
  {| kw_use_cols := {[ "user_id" := 0%Z; "item_id" := 1%Z; "rating" := 2%Z ]};
     kw_split_ratio := [3 # 5; 1 # 5; 1 # 5]%Q;
     kw_stratified_on := "item_popularity";
     kw_header := false;
     kw_delim := ",";
     kw_implicit := false;
     kw_remove_top_pop := 0%Q;
     kw_use_local := true;
     kw_force_rebuild := false;
     kw_save_local := true;
     kw_min_ratings := 1%Z;
     kw_verbose := true;
     kw_seed := 1234%Z |}.


Definition with_use_cols (kw : InitArgs) (use_cols : gmap string Z) : InitArgs :=
  mk_InitArgs use_cols (kw_split_ratio kw) (kw_stratified_on kw) (kw_header kw)
    (kw_delim kw) (kw_implicit kw) (kw_remove_top_pop kw) (kw_use_local kw)
    (kw_force_rebuild kw) (kw_save_local kw) (kw_min_ratings kw) (kw_verbose kw)
    (kw_seed kw).

Definition with_seed (kw : InitArgs) (seed : Z) : InitArgs :=
  mk_InitArgs (kw_use_cols kw) (kw_split_ratio kw) (kw_stratified_on kw) (kw_header kw)
    (kw_delim kw) (kw_implicit kw) (kw_remove_top_pop kw) (kw_use_local kw)
    (kw_force_rebuild kw) (kw_save_local kw) (kw_min_ratings kw) (kw_verbose kw)
    seed.

Definition sample_dataset : Dataset :=
  {| DATASET_NAME := "sample";
     ds_url := "http://example.org/files/sample.zip";
     ds_data_file := ["ratings.csv"];
     ds_dataset_dir := ["sample"];
     ds_all_datasets_dir := ["datasets"] |}.

(** The reader [DataReader()] of the sample dataset. *)
Definition sample_reader : DataReader :=
  {| dataset := sample_dataset;
     use_local := true; force_rebuild := false; save_local := true;
     min_ratings := 1%Z; verbose := true;
     use_cols := kw_use_cols default_InitArgs;
     split_ratio := [3 # 5; 1 # 5; 1 # 5]%Q;
     stratified_on := "item_popularity";
     header := false; delimiter := ","; remove_top_pop := 0%Q; implicit := false;
     config := {| cfg_use_cols := kw_use_cols default_InitArgs;
                  cfg_split_ratio := [3 # 5; 1 # 5; 1 # 5]%Q;
                  cfg_stratified_on := "item_popularity";
                  cfg_header := false; cfg_delim := ",";
                  cfg_implicit := false; cfg_remove_top_pop := 0%Q;
                  cfg_seed := 1234%Z |};
     ratings_file := None; URM := None; row_to_user := None; col_to_item := None;
     URM_train := None; URM_test := None; URM_validation := None |}.

Definition empty_world : World := {| files := ∅; events := [] |}.

(** A text line as a file object yields it, with its newline. *)
Definition line (s : string) : string :=
  String.append s (String "010"%char EmptyString).

Definition sample_ratings_path : path := ["datasets"; "sample"; "ratings.csv"].

(** A world with the ratings file of three interactions. *)
Definition sample_world : World :=
  {| files := {[ sample_ratings_path :=
                   TextFile [line "1,10,5.0"; line "2,10,3.0"; line "1,20,4.0"] ]};
     events := [] |}.

(** A world whose ratings file has a header line and nothing else. *)
Definition header_only_world : World :=
  {| files := {[ sample_ratings_path := TextFile [line "user,item"] ]};
     events := [] |}.

(** A server that answers every request with a body that is no archive. *)
Definition corrupt_server (url : string) : Result Response :=
  Ok {| status_code := 200; body := NotAnArchive; complete := true |}.

(** The matrix of the three interactions above. *)
Definition small_matrix : coo_matrix :=
  {| data := [5; 3; 4]%Q; row := [0; 1; 0]; col := [0; 0; 1]; shape := (2, 2) |}.

(** Two stored entries at the same coordinates. *)
Definition dup_matrix : coo_matrix :=
  {| data := [1; 2]%Q; row := [0; 0]; col := [0; 0]; shape := (1, 1) |}.

(** One user with a single rating of 5.0. *)
Definition one_rating_matrix : coo_matrix :=
  {| data := [5]%Q; row := [0]; col := [0]; shape := (1, 1) |}.

(** One user with three ratings of 0.5. *)
Definition three_halves_matrix : coo_matrix :=
  {| data := [1 # 2; 1 # 2; 1 # 2]%Q; row := [0; 0; 0]; col := [0; 1; 2];
     shape := (1, 3) |}.

(** Six interactions: item 10 once, item 20 twice, item 30 three times. *)
Definition six_rows : list Z := [1; 1; 2; 3; 3; 3]%Z.
Definition six_cols : list Z := [10; 20; 20; 30; 30; 30]%Z.
Definition six_data : list Q := [1; 1; 1; 1; 1; 1]%Q.


(** The three interactions as triples, and the same in another order. *)
Definition sample_triples : list (Z * Z * Q) :=
  [((1, 10)%Z, 5%Q); ((2, 10)%Z, 3%Q); ((1, 20)%Z, 4%Q)].

Definition sample_triples_reordered : list (Z * Z * Q) :=
  [((2, 10)%Z, 3%Q); ((1, 10)%Z, 5%Q); ((1, 20)%Z, 4%Q)].

(** The matrix of the three interactions, built with [implicit=True]. *)
Definition implicit_matrix : coo_matrix :=
  {| data := [1; 1; 1]%Q; row := [0; 1; 0]; col := [0; 0; 1]; shape := (2, 2) |}.

Section DataReader.

(** The state of NumPy's global generator and [np.random.choice(a, size=size,
    p=p)] on it; [None] stands for the [ValueError] of a rejected call. *)
Variable RandomState : Type.
Variable np_random_choice :
  forall A : Type, RandomState -> list A -> option (list Q) -> nat ->
                   option (list A * RandomState).

Hypothesis np_random_choice_draws :
  forall A g (a : list A) p size l g',
    np_random_choice A g a p size = Some (l, g') ->
    length l = size /\ Forall (fun x => x ∈ a) l.

Hypothesis np_random_choice_accepts :
  forall A g (a : list A) p size,
    a <> [] ->
    (forall q, p = Some q -> is_probability_vector (length a) q) ->
    is_Some (np_random_choice A g a p size).

(** [np.argsort]: the positions of an array in ascending order of their
    values; the order among equal values is unspecified. *)
Variable argsort : list nat -> list nat.

Hypothesis argsort_perm : forall a, argsort a ≡ₚ seq 0 (length a).

Hypothesis argsort_sorted :
  forall a, Sorted le (map (fun i => nth i a 0) (argsort a)).

(** The built-ins [int(s)] and [float(s)] on a string. *)
Variable py_int : string -> Result Z.
Variable py_float : string -> Result Q.

(** [requests.get(url, stream=True)] *)
Variable requests_get : string -> Result Response.

Definition lift {A} (r : Result A) : IO A := fun w => (r, w).

(** [try: body except catches: handler] *)
Definition try_except {A} (body : IO A) (catches : PyError -> bool)
    (handler : PyError -> IO A) : IO A :=
  fun w =>
    match body w with
    | (Raise e, w') => if catches e then handler e w' else (Raise e, w')
    | ok => ok
    end.

(** [DataReader.__init__] *)
Definition __init__ (cls : Dataset) (kw : InitArgs) : IO DataReader :=
  if negb (Qeq_bool (py_sum (kw_split_ratio kw)) 1)
     || negb (Nat.eqb (length (kw_split_ratio kw)) 3)
  then raise AttributeError
  else
    let implicit := if Nat.ltb (size (kw_use_cols kw)) 3 then true else kw_implicit kw in
    mret {| dataset := cls;
            use_local := kw_use_local kw;
            force_rebuild := kw_force_rebuild kw;
            save_local := kw_save_local kw;
            min_ratings := kw_min_ratings kw;
            verbose := kw_verbose kw;
            use_cols := kw_use_cols kw;
            split_ratio := kw_split_ratio kw;
            stratified_on := kw_stratified_on kw;
            header := kw_header kw;
            delimiter := kw_delim kw;
            remove_top_pop := kw_remove_top_pop kw;
            implicit := implicit;
            config := {| cfg_use_cols := kw_use_cols kw;
                         cfg_split_ratio := kw_split_ratio kw;
                         cfg_stratified_on := kw_stratified_on kw;
                         cfg_header := kw_header kw;
                         cfg_delim := kw_delim kw;
                         cfg_implicit := implicit;
                         cfg_remove_top_pop := kw_remove_top_pop kw;
                         cfg_seed := kw_seed kw |};
            ratings_file := None; URM := None;
            row_to_user := None; col_to_item := None;
            URM_train := None; URM_test := None; URM_validation := None |}.

(** [DataReader.download_url] *)
Definition download_url (self : DataReader) (url : string) : IO path :=
  _ ← emit (HttpGet url);
  response ← lift (requests_get url);
  if (status_code response =? 200)%Z then
    filename ← lift (pieces ← str_split url "/"; list_getitem pieces (-1));
    let abs_path :=
      ds_all_datasets_dir (dataset self) ++ ds_dataset_dir (dataset self) ++ [filename] in
    if complete response then
      _ ← write_file abs_path (body response); mret abs_path
    else
      (* the connection breaks while the chunks are written *)
      _ ← write_file abs_path NotAnArchive; raise ConnectionError
  else
    (* the message concatenates a [str] and the integer status code *)
    raise TypeError.

(** [DataReader.get_ratings_file]; [zip_file] is an absolute path, so the
    directory given to [extract] is [os.path.dirname(zip_file)]. *)
Definition get_ratings_file (self : DataReader) : IO DataReader :=
  zip_file ← download_url self (ds_url (dataset self));
  zfile ← ZipFile zip_file;
  try_except
    (ratings_file ← zip_extract zfile (ds_data_file (dataset self)) (dirname zip_file);
     (* Archive will be deleted *)
     _ ← os_remove zip_file;
     mret (set_ratings_file self ratings_file))
    (fun e => match e with FileNotFoundError | BadZipFile => true | _ => false end)
    (fun e => raise e).

(** [open(file, 'r')] and the lines the file object yields. *)
Definition open_text (file : path) : IO (list string) :=
  fun w =>
    match files w !! file with
    | None => (Raise FileNotFoundError, w)
    | Some c =>
        let w' := {| files := files w; events := events w ++ [FileOpened file] |} in
        match c with
        | TextFile lines => (Ok lines, w')
        | _ => (Raise ValueError, w')
        end
    end.

(** The body of the loop of [read_interactions], lines 333-336. *)
Definition read_line (use_cols : gmap string Z) (delimiter : string)
    (acc : list Z * list Z * list Q) (line : string)
  : Result (list Z * list Z * list Q) :=
  let '(rows, cols, data) := acc in
  row_data ← str_split line delimiter;
  i ← dict_getitem use_cols "user_id";
  field ← list_getitem row_data i;
  user ← py_int field;
  rows ← array_I_append rows user;
  i ← dict_getitem use_cols "item_id";
  field ← list_getitem row_data i;
  item ← py_int field;
  cols ← array_I_append cols item;
  i ← dict_getitem use_cols "rating";
  field ← list_getitem row_data i;
  rating ← py_float field;
  mret (rows, cols, data ++ [rating]).

Fixpoint read_lines (use_cols : gmap string Z) (delimiter : string)
    (acc : list Z * list Z * list Q) (lines : list string)
  : Result (list Z * list Z * list Q) :=
  match lines with
  | [] => Ok acc
  | line :: lines' =>
      acc' ← read_line use_cols delimiter acc line;
      read_lines use_cols delimiter acc' lines'
  end.

(** The lines the loop of [read_interactions] runs over. *)
Definition data_lines (header : bool) (lines : list string) : list string :=
  if header then tail lines else lines.

(** [DataReader.read_interactions] *)
Definition read_interactions (file : path) (use_cols : gmap string Z)
    (delimiter : string) (header : bool) : IO (list Z * list Z * list Q) :=
  lines ← open_text file;
  lift (read_lines use_cols delimiter ([], [], []) (data_lines header lines)).


(** Lines 391-403 of [build_URM]: the item ids that stay and the three
    arrays without the interactions of the items that go. *)
Definition drop_top_popular (rows cols : list Z) (data : list Q) (remove_top_pop : Q)
  : list Z * list Z * list Z * list Q :=
  let unique_items := np_unique cols in
  let item_counts := np_unique_counts cols in
  if negb (Qle_bool remove_top_pop 0) then
    let k := floor_mul (length unique_items) remove_top_pop in
    let sorted_indices := reverse (argsort item_counts) in
    let unique_items := drop k (take_at unique_items sorted_indices) in
    let col_mask := np_isin cols unique_items in
    (unique_items,
     mask_select (frombuffer_int32 cols) col_mask,
     mask_select (frombuffer_int32 rows) col_mask,
     mask_select data col_mask)
  else (unique_items, cols, rows, data).

(** Lines 388-415 of [build_URM], on the arrays [read_interactions]
    returned: the matrix and the two mappings. *)
Definition build_URM_arrays (rows cols : list Z) (data : list Q)
    (implicit : bool) (remove_top_pop : Q)
  : Result (coo_matrix * gmap Z nat * gmap Z nat) :=
  let data := if implicit then np_ones (length data) else data in
  let '(unique_items, cols, rows, data) :=
    drop_top_popular rows cols data remove_top_pop in
  let unique_users := np_unique rows in
  let shape := (length unique_users, length unique_items) in
  let row_to_user := dict_zip_range unique_users in
  let col_to_item := dict_zip_range unique_items in
  let coo_rows := series_map row_to_user rows in
  let coo_cols := series_map col_to_item cols in
  URM ← sps_coo_matrix data coo_rows coo_cols shape;
  mret (URM, row_to_user, col_to_item).

(** [DataReader.build_URM] *)
Definition build_URM (self : DataReader) (file : path) (use_cols : gmap string Z)
    (delimiter : string) (header : bool) (implicit : bool) (remove_top_pop : Q)
  : IO (coo_matrix * DataReader) :=
  '(rows, cols, data) ← read_interactions file use_cols delimiter header;
  '(URM, row_to_user, col_to_item) ←
    lift (build_URM_arrays rows cols data implicit remove_top_pop);
  mret (URM, set_built self URM row_to_user col_to_item).

(** The [URM] argument of a method, defaulting to [self.URM]. *)
Definition URM_or_self (self : DataReader) (arg : option coo_matrix)
  : Result coo_matrix :=
  match arg with
  | Some M => Ok M
  | None => match URM self with Some M => Ok M | None => Raise AttributeError end
  end.

(** The pre-filter of [split_urm], lines 480-486. *)
Definition remove_users (URM : coo_matrix) (min_ratings : Z) : coo_matrix :=
  let URM_csr := tocsr URM in
  let user_mask := nonzero_lt (sum_axis1 URM_csr) min_ratings in
  tocoo (eliminate_zeros (set_rows_zero user_mask URM_csr)).

(** [DataReader.split_urm] *)
Definition split_urm (self : DataReader) (URM : option coo_matrix)
    (split_ratio : list Q) (min_ratings : Z) (verbose : bool) (g : RandomState)
  : Result (csr_matrix * csr_matrix * csr_matrix * DataReader) * RandomState :=
  let filtered :=
    URM ← URM_or_self self URM;
    if bool_decide (min_ratings <> 1%Z) then
      (* the message concatenates a [str] and the integer [min_ratings] *)
      if verbose then Raise TypeError
      else Ok (remove_users URM min_ratings)
    else Ok URM in
  match filtered with
  | Raise e => (Raise e, g)
  | Ok URM =>
      match np_random_choice string g ["train"; "test"; "valid"]
                             (Some split_ratio) (length (data URM)) with
      | None => (Raise ValueError, g)
      | Some (choice, g') =>
          let URM_train := tocsr (coo_select URM (np_eq choice "train")) in
          let URM_test := tocsr (coo_select URM (np_eq choice "test")) in
          let URM_validation := tocsr (coo_select URM (np_eq choice "valid")) in
          (Ok (URM_train, URM_test, URM_validation,
               set_splits self URM_train URM_test URM_validation), g')
      end
  end.

(** [DataReader.get_CV_folds]: the generator, read as the list of the
    pairs it yields, in order. *)
Definition get_CV_folds (self : DataReader) (URM : option coo_matrix) (folds : nat)
    (g : RandomState)
  : Result (list (csr_matrix * csr_matrix)) * RandomState :=
  match URM_or_self self URM with
  | Raise e => (Raise e, g)
  | Ok URM =>
      match np_random_choice nat g (seq 0 folds) None (length (data URM)) with
      | None => (Raise ValueError, g)
      | Some (choice, g') =>
          (Ok (map (fun i =>
                      let URM_test := coo_select URM (np_eq choice i) in
                      let URM_train := coo_select URM (np_ne choice i) in
                      (tocsr URM_train, tocsr URM_test))
                   (seq 0 folds)), g')
      end
  end.

(** Constructing a reader and splitting a full matrix with its settings,
    the call made at lines 106-110, 149-153 and 638-642. *)
Definition construct_and_split (cls : Dataset) (kw : InitArgs) (M : coo_matrix)
    (w : World) (g : RandomState)
  : Result (csr_matrix * csr_matrix * csr_matrix) * RandomState :=
  match __init__ cls kw w with
  | (Raise e, _) => (Raise e, g)
  | (Ok self, _) =>
      match split_urm self (Some M) (split_ratio self) (min_ratings self)
                      (verbose self) g with
      | (Ok (tr, te, va, _), g') => (Ok (tr, te, va), g')
      | (Raise e, g') => (Raise e, g')
      end
  end.

(* ================================================================== *)
(** * Properties *)

(** ** Masks and parallel arrays *)

Lemma mask_select_zip {A B} (l1 : list A) (l2 : list B) (m : list bool) :
  mask_select (zip l1 l2) m = zip (mask_select l1 m) (mask_select l2 m).
Proof.
  revert l2 m. induction l1 as [|x l1 IH]; intros [|y l2] [|b m]; simpl; auto.
  - destruct b; simpl; auto. by rewrite zip_with_nil_r.
  - destruct b; simpl; by rewrite IH.
Qed.

Lemma coo_entries_select (M : coo_matrix) (m : list bool) :
  coo_entries (coo_select M m) = mask_select (coo_entries M) m.
Proof. unfold coo_entries, coo_select; simpl. by rewrite !mask_select_zip. Qed.

Lemma length_coo_entries (M : coo_matrix) :
  coo_wf M -> length (coo_entries M) = nnz M.
Proof.
  intros [Hr Hc]. unfold coo_entries, nnz.
  rewrite !length_zip_with. lia.
Qed.

Lemma mask_select_sublist {A} (l : list A) (m : list bool) :
  mask_select l m `sublist_of` l.
Proof.
  revert m. induction l as [|x l IH]; intros [|[] m]; simpl;
    try constructor; auto using sublist_nil_l.
Qed.

Lemma mask_select_complement {A} `{EqDecision B} (l : list A) (choice : list B) (i : B) :
  length choice = length l ->
  mask_select l (np_ne choice i) ++ mask_select l (np_eq choice i) ≡ₚ l.
Proof.
  revert choice. induction l as [|x l IH]; intros [|c choice] Hlen; simpl in *; try done.
  case_bool_decide; simpl.
  - rewrite <- Permutation_middle. constructor. apply IH; lia.
  - constructor. apply IH; lia.
Qed.

(** ** Conversion to CSR *)

Lemma csr_insert_fresh (e : entry) (l : list entry) :
  e.1 ∉ l.*1 -> csr_insert e l ≡ₚ e :: l.
Proof.
  induction l as [|e' l IH]; simpl; intros Hnotin; [done|].
  apply not_elem_of_cons in Hnotin as [Hne Hnotin].
  destruct (decide (e.1 = e'.1)); [done|].
  destruct (decide (coord_lt e.1 e'.1)); [done|].
  rewrite (IH Hnotin). apply perm_swap.
Qed.

Lemma fold_csr_insert_perm (es acc : list entry) :
  NoDup ((acc ++ es).*1) ->
  fold_left (fun acc e => csr_insert e acc) es acc ≡ₚ acc ++ es.
Proof.
  revert acc. induction es as [|e es IH]; intros acc Hnd; simpl.
  - by rewrite app_nil_r.
  - assert (Hfresh : e.1 ∉ acc.*1).
    { rewrite fmap_app, fmap_cons in Hnd.
      apply NoDup_app in Hnd as (_ & Hdisj & _).
      intros Hin. apply (Hdisj _ Hin). left. }
    pose proof (csr_insert_fresh e acc Hfresh) as Hins.
    rewrite IH.
    + rewrite Hins. simpl. by rewrite <- Permutation_middle.
    + rewrite Hins. simpl. by rewrite <- Permutation_middle in Hnd.
Qed.

(** Without two entries at the same coordinates, the conversion to CSR
    only reorders the stored entries. *)
Lemma canonical_perm (es : list entry) :
  NoDup (es.*1) -> canonical es ≡ₚ es.
Proof. intros Hnd. unfold canonical. by rewrite fold_csr_insert_perm. Qed.

Lemma tocsr_select_perm (M : coo_matrix) (m : list bool) :
  NoDup ((coo_entries M).*1) ->
  csr_entries (tocsr (coo_select M m)) ≡ₚ mask_select (coo_entries M) m.
Proof.
  intros Hnd. unfold tocsr; simpl. rewrite coo_entries_select.
  apply canonical_perm.
  eapply sublist_NoDup; [exact Hnd|].
  apply fmap_sublist, mask_select_sublist.
Qed.

(** ** The three-way split *)

Lemma mask_select_three {A} (l : list A) (choice : list string) :
  length choice = length l ->
  Forall (fun c => c ∈ ["train"; "test"; "valid"]) choice ->
  mask_select l (np_eq choice "train") ++ mask_select l (np_eq choice "test")
    ++ mask_select l (np_eq choice "valid") ≡ₚ l.
Proof.
  revert choice. induction l as [|x l IH]; intros [|c choice] Hlen Hall;
    simpl in *; try done.
  inversion Hall as [|? ? Hc Hall']; subst.
  assert (Hrec := IH choice ltac:(lia) Hall').
  set_unfold in Hc. destruct Hc as [-> | [-> | [-> | []]]]; simpl.
  - by constructor.
  - rewrite <- Permutation_middle. by constructor.
  - rewrite app_assoc, <- Permutation_middle, <- app_assoc. by constructor.
Qed.

(** ** The folds *)

Lemma sum_list_indicator (c k : nat) :
  sum_list_with (fun i => if bool_decide (c = i) then 1 else 0) (seq 0 k)
  = if decide (c < k) then 1 else 0.
Proof.
  induction k as [|k IH]; [done|].
  rewrite seq_S, sum_list_with_app, IH. simpl.
  repeat case_decide; case_bool_decide; lia.
Qed.

Lemma sum_list_with_plus {A} (f1 f2 : A -> nat) (l : list A) :
  sum_list_with (fun i => f1 i + f2 i) l = sum_list_with f1 l + sum_list_with f2 l.
Proof. induction l as [|x l IH]; simpl; lia. Qed.

Lemma sum_list_with_ext {A} (f1 f2 : A -> nat) (l : list A) :
  (forall i, f1 i = f2 i) -> sum_list_with f1 l = sum_list_with f2 l.
Proof. intros Hext. induction l as [|x l IH]; simpl; [done|]. by rewrite Hext, IH. Qed.

Lemma sum_list_with_map {A B} (f : B -> nat) (h : A -> B) (l : list A) :
  sum_list_with f (map h l) = sum_list_with (fun i => f (h i)) l.
Proof. induction l as [|x l IH]; simpl; [done|]. by rewrite IH. Qed.

Lemma length_mask_select_folds {A} (l : list A) (choice : list nat) (k : nat) :
  length choice = length l ->
  Forall (fun c => c < k) choice ->
  sum_list_with (fun i => length (mask_select l (np_eq choice i))) (seq 0 k) = length l.
Proof.
  revert choice. induction l as [|x l IH]; intros [|c choice] Hlen Hall;
    simpl in *; try done.
  - clear. induction (seq 0 k); simpl; auto.
  - inversion Hall as [|? ? Hc Hall']; subst.
    rewrite (sum_list_with_ext _ (fun i => (if bool_decide (c = i) then 1 else 0)
                                 + length (mask_select l (np_eq choice i)))).
    + rewrite sum_list_with_plus, sum_list_indicator, IH by (done || lia).
      case_decide; lia.
    + intros i. by case_bool_decide.
Qed.

(** ** Claims *)

(** C1 (as amended). For a matrix in coordinate form with no two stored
    entries at the same (row, col), a ratio of three non-negative numbers
    summing to 1 and [min_ratings = 1], [split_urm] returns train, test and
    validation matrices of the shape of the input whose stored-entry
    counts add up to that of the input and whose entries, taken together
    as a multiset, are exactly the entries of the input. *)
Theorem split_urm_partitions_entries (self : DataReader)
    (M : coo_matrix) (split_ratio : list Q) (verbose : bool) (g : RandomState) :
  coo_wf M ->
  NoDup ((coo_entries M).*1) ->
  is_probability_vector 3 split_ratio ->
  exists train test valid self' g',
    split_urm self (Some M) split_ratio 1 verbose g
      = (Ok (train, test, valid, self'), g') /\
    csr_shape train = shape M /\ csr_shape test = shape M /\
    csr_shape valid = shape M /\
    csr_nnz train + csr_nnz test + csr_nnz valid = nnz M /\
    csr_entries train ++ csr_entries test ++ csr_entries valid ≡ₚ coo_entries M.
Proof.
  intros Hwf Hnd Hp. unfold split_urm. simpl.
  destruct (np_random_choice_accepts string g ["train"; "test"; "valid"]
              (Some split_ratio) (length (data M))) as [[choice g'] Hch];
    [done | by intros q [= <-] |].
  rewrite Hch.
  apply np_random_choice_draws in Hch as [Hlen Hall].
  assert (Hperm :
    csr_entries (tocsr (coo_select M (np_eq choice "train")))
      ++ csr_entries (tocsr (coo_select M (np_eq choice "test")))
      ++ csr_entries (tocsr (coo_select M (np_eq choice "valid")))
    ≡ₚ coo_entries M).
  { rewrite !tocsr_select_perm by done.
    apply mask_select_three; [|done].
    rewrite length_coo_entries by done. exact Hlen. }
  eexists _, _, _, _, _. split; [reflexivity|].
  repeat split; try done.
  apply Permutation_length in Hperm.
  rewrite !length_app, length_coo_entries in Hperm by done.
  unfold csr_nnz. lia.
Qed.

(** C6 (as amended). For a matrix with no two stored entries at the same
    (row, col) and a fold count [k >= 1], [get_CV_folds] yields exactly
    [k] pairs; in each pair both matrices have the shape of the input,
    train and test entries together are exactly the entries of the input
    and no entry is in both; the test-set sizes of the [k] folds add up to
    the number of stored entries of the input. *)
Theorem get_CV_folds_partitions_entries (self : DataReader)
    (M : coo_matrix) (folds : nat) (g : RandomState) :
  coo_wf M ->
  NoDup ((coo_entries M).*1) ->
  1 <= folds ->
  exists pairs g',
    get_CV_folds self (Some M) folds g = (Ok pairs, g') /\
    length pairs = folds /\
    Forall (fun p : csr_matrix * csr_matrix =>
              csr_shape p.1 = shape M /\ csr_shape p.2 = shape M /\
              csr_entries p.1 ++ csr_entries p.2 ≡ₚ coo_entries M /\
              (forall e, e ∈ csr_entries p.1 -> e ∉ csr_entries p.2)) pairs /\
    sum_list_with (fun p : csr_matrix * csr_matrix => csr_nnz p.2) pairs = nnz M.
Proof.
  intros Hwf Hnd Hk. unfold get_CV_folds. simpl.
  destruct (np_random_choice_accepts nat g (seq 0 folds) None (length (data M)))
    as [[choice g'] Hch]; [by destruct folds; [lia|] | done |].
  rewrite Hch.
  apply np_random_choice_draws in Hch as [Hlen Hall].
  assert (Hlen' : length choice = length (coo_entries M))
    by (by rewrite length_coo_entries).
  eexists _, _. split; [reflexivity|].
  split; [by rewrite length_map, length_seq|].
  split.
  - apply Forall_forall. intros p Hp.
    apply list_elem_of_fmap in Hp as (i & -> & _). simpl.
    assert (Hperm :
      csr_entries (tocsr (coo_select M (np_ne choice i)))
        ++ csr_entries (tocsr (coo_select M (np_eq choice i))) ≡ₚ coo_entries M).
    { rewrite !tocsr_select_perm by done. by apply mask_select_complement. }
    repeat split; try done.
    intros e Hin1 Hin2.
    assert (Hnd' : NoDup (coo_entries M)) by (by apply NoDup_fmap_1 in Hnd).
    rewrite <- Hperm in Hnd'.
    apply NoDup_app in Hnd' as (_ & Hdisj & _). by apply (Hdisj e).
  - rewrite sum_list_with_map. simpl.
    rewrite (sum_list_with_ext _
               (fun i => length (mask_select (coo_entries M) (np_eq choice i)))).
    + rewrite length_mask_select_folds, length_coo_entries; try done.
      eapply Forall_impl; [exact Hall|]. intros c Hc. simpl in Hc.
      apply elem_of_seq in Hc. lia.
    + intros i. unfold csr_nnz.
      apply Permutation_length. by apply tocsr_select_perm.
Qed.

(** ** The constructor *)

Lemma init_ok (cls : Dataset) (kw : InitArgs) (w : World) :
  (py_sum (kw_split_ratio kw) == 1)%Q -> length (kw_split_ratio kw) = 3 ->
  exists self, __init__ cls kw w = (Ok self, w).
Proof.
  intros Hsum Hlen. unfold __init__.
  apply Qeq_bool_iff in Hsum. apply Nat.eqb_eq in Hlen.
  rewrite Hsum, Hlen. simpl. eauto.
Qed.


Lemma init_ok_inv (cls : Dataset) (kw : InitArgs) (w : World) self w' :
  __init__ cls kw w = (Ok self, w') ->
  w' = w /\
  split_ratio self = kw_split_ratio kw /\
  min_ratings self = kw_min_ratings kw /\
  verbose self = kw_verbose kw /\
  use_cols self = kw_use_cols kw /\
  implicit self = (if Nat.ltb (size (kw_use_cols kw)) 3 then true else kw_implicit kw).
Proof.
  unfold __init__.
  destruct (negb _ || negb _); [done|].
  intros [= <- <-]. done.
Qed.

(** ** Splitting does not look at the reader *)

Lemma split_urm_any_self (self1 self2 : DataReader) (M : coo_matrix)
    (ratio : list Q) (t : Z) (v : bool) (g : RandomState) :
  match split_urm self1 (Some M) ratio t v g, split_urm self2 (Some M) ratio t v g with
  | (Ok (tr1, te1, va1, _), g1), (Ok (tr2, te2, va2, _), g2) =>
      tr1 = tr2 /\ te1 = te2 /\ va1 = va2 /\ g1 = g2
  | (Raise e1, g1), (Raise e2, g2) => e1 = e2 /\ g1 = g2
  | _, _ => False
  end.
Proof.
  unfold split_urm. simpl.
  destruct (bool_decide (t <> 1%Z)); [destruct v|]; simpl; try done;
    destruct (np_random_choice _ _ _ _ _) as [[choice g']|]; done.
Qed.

(** C2 (as amended). The splits a freshly constructed reader produces for
    a matrix are determined by the matrix, the ratio, [min_ratings],
    [verbose] and the state of the process-wide generator at the call; the
    seed recorded in the configuration takes no part: with any two seeds,
    runs that start from the same generator state return the same
    matrices. *)
Theorem split_depends_on_generator_not_seed (cls : Dataset) (kw : InitArgs)
    (seed1 seed2 : Z) (M : coo_matrix) (w1 w2 : World) (g : RandomState) :
  construct_and_split cls (with_seed kw seed1) M w1 g
  = construct_and_split cls (with_seed kw seed2) M w2 g.
Proof.
  unfold construct_and_split, __init__. simpl.
  destruct (negb _ || negb _); [done|]. simpl.
  match goal with
  | |- context [split_urm ?s1 _ _ _ _ _] =>
      match goal with
      | |- _ = match split_urm ?s2 _ _ _ _ _ with _ => _ end =>
          pose proof (split_urm_any_self s1 s2 M (kw_split_ratio kw)
                        (kw_min_ratings kw) (kw_verbose kw) g) as Hss
      end
  end.
  simpl in Hss.
  repeat match type of Hss with
         | context [split_urm ?s ?m ?r ?t ?v ?g] =>
             destruct (split_urm s m r t v g) as [[[[[? ?] ?] ?]|?] ?]
         end; simpl in *; try done.
  - by destruct Hss as (-> & -> & -> & ->).
  - by destruct Hss as (-> & ->).
Qed.

(** ** Parsing *)

Lemma read_line_without_rating (use_cols : gmap string Z) (delimiter : string)
    (acc : list Z * list Z * list Q) (line : string) :
  use_cols !! "rating" = None ->
  exists e, read_line use_cols delimiter acc line = Raise e.
Proof.
  intros Hnone. destruct acc as [[rows cols] data].
  unfold read_line, mbind, Result_bind.
  replace (dict_getitem use_cols "rating") with (@Raise Z KeyError)
    by (unfold dict_getitem; by rewrite Hnone).
  repeat match goal with
         | |- context [match ?x with Ok _ => _ | Raise _ => _ end] =>
             destruct x; eauto
         end.
Qed.

Lemma read_lines_without_rating (use_cols : gmap string Z) (delimiter : string)
    (acc : list Z * list Z * list Q) (lines : list string) :
  use_cols !! "rating" = None ->
  lines <> [] ->
  exists e, read_lines use_cols delimiter acc lines = Raise e.
Proof.
  intros Hnone Hne. destruct lines as [|line lines]; [done|]. simpl.
  destruct (read_line_without_rating use_cols delimiter acc line Hnone) as [e ->].
  by exists e.
Qed.

(** C10 (as amended). A [use_cols] with fewer than three entries is not
    rejected: the constructor returns a reader with [implicit] forced to
    [True].  Yet for a [use_cols] without the key 'rating' and a file with
    at least one data line (a line after the header line when
    [header=True]), [read_interactions] raises and returns no sequences,
    and so does [build_URM]. *)
Theorem implicit_forced_but_rating_required :
  (forall (cls : Dataset) (kw : InitArgs) (w : World),
      (py_sum (kw_split_ratio kw) == 1)%Q -> length (kw_split_ratio kw) = 3 ->
      size (kw_use_cols kw) < 3 ->
      exists self, __init__ cls kw w = (Ok self, w) /\
                   implicit self = true /\ use_cols self = kw_use_cols kw) /\
  (forall (self : DataReader) (file : path) (use_cols : gmap string Z)
          (delimiter : string) (header implicit : bool) (r : Q)
          (w : World) (lines : list string),
      use_cols !! "rating" = None ->
      files w !! file = Some (TextFile lines) ->
      data_lines header lines <> [] ->
      (exists e w', read_interactions file use_cols delimiter header w = (Raise e, w')) /\
      (exists e w', build_URM self file use_cols delimiter header implicit r w
                    = (Raise e, w'))).
Proof.
  split.
  - intros cls kw w Hsum Hlen Hsize.
    destruct (init_ok cls kw w Hsum Hlen) as [self Hself].
    exists self. split; [done|].
    apply init_ok_inv in Hself as (_ & _ & _ & _ & Hcols & Himp).
    split; [|done]. rewrite Himp.
    by destruct (Nat.ltb_spec (size (kw_use_cols kw)) 3); [|lia].
  - intros self file use_cols delimiter header implicit r w lines Hnone Hfile Hne.
    destruct (read_lines_without_rating use_cols delimiter ([], [], [])
                (data_lines header lines) Hnone Hne) as [e He].
    assert (Hread : read_interactions file use_cols delimiter header w
                    = (Raise e, {| files := files w;
                                   events := events w ++ [FileOpened file] |})).
    { unfold read_interactions, mbind, IO_bind, open_text, lift.
      by rewrite Hfile, He. }
    split; [by eauto|].
    unfold build_URM. unfold mbind at 1. unfold IO_bind. rewrite Hread. eauto.
Qed.

(** ** Implicit feedback *)

Lemma Forall_mask_select {A} (P : A -> Prop) (l : list A) (m : list bool) :
  Forall P l -> Forall P (mask_select l m).
Proof.
  intros HP. eapply Forall_forall. intros x Hx.
  eapply Forall_forall; [exact HP|].
  eapply elem_of_sublist; [exact Hx | apply mask_select_sublist].
Qed.

Lemma sps_coo_matrix_Ok (d : list Q) (rs cs : list (option nat))
    (sh : nat * nat) (M : coo_matrix) :
  sps_coo_matrix d rs cs sh = Ok M ->
  data M = d /\ shape M = sh /\
  Forall2 (fun o i => o = Some i) rs (row M) /\
  Forall2 (fun o i => o = Some i) cs (col M).
Proof.
  unfold sps_coo_matrix.
  destruct (mapM id rs) as [coo_rows|] eqn:Hr; [|done].
  destruct (mapM id cs) as [coo_cols|] eqn:Hc; [|done].
  intros [= <-]. simpl.
  apply mapM_Some in Hr, Hc. done.
Qed.

(** What a successful [build_URM] returns, in terms of the arrays that
    come out of the popularity filter. *)
Lemma build_URM_arrays_Ok (rows cols : list Z) (d : list Q) (implicit : bool)
    (r : Q) (M : coo_matrix) (r2u c2i : gmap Z nat) :
  build_URM_arrays rows cols d implicit r = Ok (M, r2u, c2i) ->
  exists unique_items cols' rows' d',
    drop_top_popular rows cols (if implicit then np_ones (length d) else d) r
      = (unique_items, cols', rows', d') /\
    r2u = dict_zip_range (np_unique rows') /\
    c2i = dict_zip_range unique_items /\
    shape M = (length (np_unique rows'), length unique_items) /\
    data M = d' /\
    Forall2 (fun u i => r2u !! u = Some i) rows' (row M) /\
    Forall2 (fun c j => c2i !! c = Some j) cols' (col M).
Proof.
  unfold build_URM_arrays.
  destruct (drop_top_popular _ _ _ _) as [[[unique_items cols'] rows'] d'].
  unfold mbind, Result_bind.
  destruct (sps_coo_matrix _ _ _ _) as [URM|] eqn:Hcoo; [|done].
  intros [= <- <- <-].
  apply sps_coo_matrix_Ok in Hcoo as (Hd & Hs & Hr & Hc).
  exists unique_items, cols', rows', d'.
  repeat split; try done.
  - unfold series_map in Hr. apply Forall2_fmap_l in Hr. done.
  - unfold series_map in Hc. apply Forall2_fmap_l in Hc. done.
Qed.

Lemma drop_top_popular_ones (rows cols : list Z) (n : nat) (r : Q)
    unique_items cols' rows' d' :
  drop_top_popular rows cols (np_ones n) r = (unique_items, cols', rows', d') ->
  Forall (fun v => v = 1%Q) d'.
Proof.
  unfold drop_top_popular.
  destruct (negb (Qle_bool r 0)); intros [= <- <- <- <-].
  - apply Forall_mask_select, Forall_replicate. done.
  - apply Forall_replicate. done.
Qed.

Lemma build_URM_Ok (self : DataReader) (file : path) (use_cols : gmap string Z)
    (delimiter : string) (header implicit : bool) (r : Q) (w w' : World)
    (M : coo_matrix) (self' : DataReader) :
  build_URM self file use_cols delimiter header implicit r w = (Ok (M, self'), w') ->
  exists rows cols d w1 r2u c2i,
    read_interactions file use_cols delimiter header w = (Ok (rows, cols, d), w1) /\
    build_URM_arrays rows cols d implicit r = Ok (M, r2u, c2i) /\
    self' = set_built self M r2u c2i.
Proof.
  unfold build_URM. unfold mbind at 1. unfold IO_bind.
  destruct (read_interactions _ _ _ _ _) as [[[[rows cols] d]|e] w1] eqn:Hread;
    [|done].
  unfold mbind, IO_bind, lift, mret, IO_ret.
  destruct (build_URM_arrays _ _ _ _ _) as [[[URM r2u] c2i]|e] eqn:Harr; [|done].
  intros [= <- <- <-]. by eexists _, _, _, _, _, _.
Qed.

(** C7. Whatever the file and its ratings, the matrix that [build_URM]
    returns when called with [implicit=True] stores the value 1.0 in every
    entry, and it is the matrix kept in [self.URM]. *)
Theorem build_URM_implicit_all_ones (self : DataReader) (file : path)
    (use_cols : gmap string Z) (delimiter : string) (header : bool) (r : Q)
    (w w' : World) (M : coo_matrix) (self' : DataReader) :
  build_URM self file use_cols delimiter header true r w = (Ok (M, self'), w') ->
  Forall (fun v => v = 1%Q) (data M) /\ URM self' = Some M.
Proof.
  intros Hb.
  apply build_URM_Ok in Hb as (rows & cols & d & w1 & r2u & c2i & _ & Harr & ->).
  split; [|done].
  apply build_URM_arrays_Ok in Harr
    as (unique_items & cols' & rows' & d' & Hdrop & _ & _ & _ & -> & _).
  by eapply drop_top_popular_ones.
Qed.

(** ** Download and extraction *)

(** Closes a goal on the membership of an event in an explicit list in
    which no event of that kind occurs. *)
Ltac by_event_list :=
  let Hin := fresh "Hin" in
  intros ? Hin; apply list_elem_of_In in Hin; simpl in Hin;
  repeat (destruct Hin as [Hin | Hin]; [discriminate|]);
  destruct Hin.

Lemma download_url_Ok (self : DataReader) (url : string) (w w1 : World)
    (zip_file : path) :
  download_url self url w = (Ok zip_file, w1) ->
  exists c, files w1 = <[zip_file := c]> (files w) /\
            events w1 = events w ++ [HttpGet url; FileWritten zip_file].
Proof using Type.
  unfold download_url, emit, lift, write_file, raise, mbind, IO_bind, mret, IO_ret.
  destruct (requests_get url) as [response|e]; [|done].
  destruct (status_code response =? 200)%Z; [|done].
  destruct (Result_bind _ _ _ _) as [filename|e]; [|done].
  destruct (complete response); [|done].
  intros [= <- <-]. simpl. eexists. split; [done|].
  by rewrite <- app_assoc.
Qed.

Lemma download_url_Raise (self : DataReader) (url : string) (w w1 : World)
    (e : PyError) :
  download_url self url w = (Raise e, w1) ->
  exists evs,
    events w1 = events w ++ evs /\
    (forall p, FileRemoved p ∉ evs) /\
    (forall p, FileWritten p ∈ evs -> is_Some (files w1 !! p)) /\
    (forall p, is_Some (files w !! p) -> is_Some (files w1 !! p)).
Proof using Type.
  unfold download_url, emit, lift, write_file, raise, mbind, IO_bind, mret, IO_ret.
  assert (Hget : forall w1 : World,
             Some w1 = Some {| files := files w; events := events w ++ [HttpGet url] |} ->
             exists evs,
               events w1 = events w ++ evs /\
               (forall p, FileRemoved p ∉ evs) /\
               (forall p, FileWritten p ∈ evs -> is_Some (files w1 !! p)) /\
               (forall p, is_Some (files w !! p) -> is_Some (files w1 !! p))).
  { intros ? [= ->]. exists [HttpGet url]. simpl.
    repeat split; try done; by_event_list. }
  destruct (requests_get url) as [response|e'];
    [|intros [= <- <-]; by apply Hget].
  destruct (status_code response =? 200)%Z;
    [|intros [= <- <-]; by apply Hget].
  destruct (Result_bind _ _ _ _) as [filename|e'];
    [|intros [= <- <-]; by apply Hget].
  destruct (complete response); [done|].
  intros [= <- <-]. simpl.
  eexists [HttpGet url; FileWritten _]. rewrite <- app_assoc.
  split; [done|]. split; [|split].
  - by_event_list.
  - intros p. rewrite list_elem_of_In. simpl.
    intros [Hp | [Hp | []]]; [discriminate|].
    injection Hp as <-. rewrite lookup_insert_eq. eauto.
  - intros p Hp. apply lookup_insert_is_Some'. by right.
Qed.

(** C9 (as amended). When [get_ratings_file] fails, whatever the failure,
    the error propagates with nothing removed: every file the call wrote,
    the downloaded archive included, complete or partial, is still on
    disk, and so is every file that was there before.  The archive is
    removed only after a successful extraction. *)
Theorem get_ratings_file_archive_fate (self : DataReader) (w : World) :
  match get_ratings_file self w with
  | (Ok self', w') =>
      exists zip_file w1,
        download_url self (ds_url (dataset self)) w = (Ok zip_file, w1) /\
        files w' !! zip_file = None /\
        FileRemoved zip_file ∈ events w'
  | (Raise e, w') =>
      exists evs,
        events w' = events w ++ evs /\
        (forall p, FileRemoved p ∉ evs) /\
        (forall p, FileWritten p ∈ evs -> is_Some (files w' !! p)) /\
        (forall p, is_Some (files w !! p) -> is_Some (files w' !! p)) /\
        (forall zip_file w1,
            download_url self (ds_url (dataset self)) w = (Ok zip_file, w1) ->
            is_Some (files w' !! zip_file))
  end.
Proof using Type.
  unfold get_ratings_file, try_except.
  unfold mbind at 1. unfold IO_bind at 1.
  destruct (download_url self (ds_url (dataset self)) w) as [[zip_file|e] w1] eqn:Hdl.
  - apply download_url_Ok in Hdl as (c & Hfiles & Hevents).
    assert (Hkeep : forall p, is_Some (files w !! p) -> is_Some (files w1 !! p)).
    { intros p Hp. rewrite Hfiles. apply lookup_insert_is_Some'. by right. }
    assert (Hzip : files w1 !! zip_file = Some c)
      by (rewrite Hfiles; apply lookup_insert_eq).
    (* every failure from here on leaves the world as it is after the
       archive has been opened *)
    assert (Hfail :
      exists evs,
        events w1 ++ [FileOpened zip_file] = events w ++ evs /\
        (forall p, FileRemoved p ∉ evs) /\
        (forall p, FileWritten p ∈ evs -> is_Some (files w1 !! p)) /\
        (forall p, is_Some (files w !! p) -> is_Some (files w1 !! p)) /\
        (forall zip_file0 w0, (Ok zip_file, w1) = (Ok zip_file0, w0) ->
                              is_Some (files w1 !! zip_file0))).
    { exists [HttpGet (ds_url (dataset self)); FileWritten zip_file;
              FileOpened zip_file].
      rewrite Hevents, <- app_assoc. simpl.
      split; [done|]. split; [by_event_list|]. split; [|split; [done|]].
      - intros p Hin. apply list_elem_of_In in Hin. simpl in Hin.
        destruct Hin as [Hp | [Hp | [Hp | []]]]; try discriminate.
        injection Hp as <-. eauto.
      - intros ? ? [= <- <-]. eauto. }
    unfold ZipFile, zip_extract, os_remove, write_file, raise,
      mbind, IO_bind, mret, IO_ret.
    rewrite Hzip. simpl.
    destruct c as [lines | members |]; simpl; [exact Hfail | | exact Hfail].
    destruct (members !! ds_data_file (dataset self)) as [[lines|]|] eqn:Hmem;
      simpl; [| exact Hfail | exact Hfail].
    assert (Hstill : is_Some
        (<[dirname zip_file ++ ds_data_file (dataset self) := TextFile lines]>
           (files w1) !! zip_file))
      by (apply lookup_insert_is_Some'; right; eauto).
    destruct Hstill as [c' ->]. simpl.
    exists zip_file, w1. split; [done|]. split; [apply lookup_delete_eq|].
    apply list_elem_of_In, in_or_app. right. by left.
  - apply download_url_Raise in Hdl as (evs & Hev & Hrm & Hwr & Hkeep).
    exists evs. repeat split; try done.
Qed.

(** ** Unique values and the index mappings *)

Lemma elem_of_np_unique (a : list Z) (x : Z) : x ∈ np_unique a <-> x ∈ a.
Proof. unfold np_unique. by rewrite merge_sort_Permutation, elem_of_remove_dups. Qed.

Lemma NoDup_np_unique (a : list Z) : NoDup (np_unique a).
Proof. unfold np_unique. rewrite merge_sort_Permutation. apply NoDup_remove_dups. Qed.

Lemma StronglySorted_le_lt (l : list Z) :
  StronglySorted Z.le l -> NoDup l -> StronglySorted Z.lt l.
Proof.
  induction 1 as [|x l Hs IH Hall]; intros Hnd; constructor;
    apply NoDup_cons in Hnd as [Hx Hnd]; [by apply IH|].
  apply Forall_forall. intros y Hy.
  assert (x <= y)%Z by (by eapply Forall_forall in Hall).
  assert (x <> y) by (by intros ->). lia.
Qed.

Lemma np_unique_sorted (a : list Z) : StronglySorted Z.lt (np_unique a).
Proof.
  apply StronglySorted_le_lt; [|apply NoDup_np_unique].
  apply Sorted_StronglySorted; [apply _|].
  unfold np_unique. apply Sorted_merge_sort. apply _.
Qed.


(** The mapping built from distinct keys sends each key to its position. *)
Lemma dict_zip_range_lookup (keys : list Z) (id : Z) (i : nat) :
  NoDup keys ->
  dict_zip_range keys !! id = Some i <-> keys !! i = Some id.
Proof.
  intros Hnd. unfold dict_zip_range.
  rewrite <- elem_of_list_to_map
    by (rewrite fst_zip; [done | by rewrite length_seq]).
  rewrite elem_of_lookup_zip_with. split.
  - intros (j & x & y & [= -> ->] & Hx & Hy).
    apply lookup_seq in Hy as [-> _]. done.
  - intros Hi. exists i, id, i. split; [done|]. split; [done|].
    apply lookup_seq. split; [done|]. by eapply lookup_lt_Some.
Qed.

Lemma dict_zip_range_is_Some (keys : list Z) (id : Z) :
  NoDup keys -> is_Some (dict_zip_range keys !! id) <-> id ∈ keys.
Proof.
  intros Hnd. rewrite list_elem_of_lookup. unfold is_Some.
  split; intros [i Hi]; exists i; by apply dict_zip_range_lookup.
Qed.

(** ** The popularity ranking *)

Lemma take_at_seq (a : list Z) : take_at a (seq 0 (length a)) = a.
Proof.
  unfold take_at. induction a as [|x a IH]; [done|].
  simpl. f_equal. rewrite <- fmap_S_seq.
  change (map ?f (S <$> ?l)) with (map f (map S l)).
  rewrite map_map. simpl. exact IH.
Qed.

Lemma length_np_unique_counts (a : list Z) :
  length (np_unique_counts a) = length (np_unique a).
Proof. unfold np_unique_counts. by rewrite length_map. Qed.

(** The items in the order of line 396: a rearrangement of the unique
    items. *)
Lemma ranked_perm (cols : list Z) :
  take_at (np_unique cols) (reverse (argsort (np_unique_counts cols)))
  ≡ₚ np_unique cols.
Proof.
  rewrite <- (take_at_seq (np_unique cols)) at 2.
  unfold take_at.
  change (map ?f ?l) with (f <$> l).
  apply fmap_Permutation.
  rewrite reverse_Permutation, argsort_perm, length_np_unique_counts. done.
Qed.


Lemma NoDup_kept_items (rows cols : list Z) (d : list Q) (r : Q)
    unique_items cols' rows' d' :
  drop_top_popular rows cols d r = (unique_items, cols', rows', d') ->
  NoDup unique_items /\ (forall id, id ∈ unique_items -> id ∈ cols).
Proof.
  unfold drop_top_popular.
  destruct (negb (Qle_bool r 0)); intros [= <- <- <- <-].
  - split.
    + eapply sublist_NoDup; [|apply sublist_drop].
      rewrite ranked_perm. apply NoDup_np_unique.
    + intros id Hid. apply elem_of_np_unique. rewrite <- ranked_perm.
      eapply elem_of_sublist; [exact Hid | apply sublist_drop].
  - split; [apply NoDup_np_unique | intros id; apply elem_of_np_unique].
Qed.



(** ** Removing the most popular items *)


Lemma length_mask_select_eq {A B} (l1 : list A) (l2 : list B) (m : list bool) :
  length l1 = length l2 ->
  length (mask_select l1 m) = length (mask_select l2 m).
Proof.
  revert l2 m. induction l1 as [|x l1 IH]; intros [|y l2] [|[] m] Hlen;
    simpl in *; try done; auto.
Qed.







(* ================================================================== *)
(** * Further properties *)

(** ** The CSR form is canonical *)

Lemma coord_lt_trans (a b c : nat * nat) : coord_lt a b -> coord_lt b c -> coord_lt a c.
Proof. unfold coord_lt. lia. Qed.

Lemma coord_lt_irrefl (a : nat * nat) : ~ coord_lt a a.
Proof. unfold coord_lt. lia. Qed.

Lemma coord_trichotomy (a b : nat * nat) : a <> b -> ~ coord_lt a b -> coord_lt b a.
Proof.
  destruct a as [a1 a2], b as [b1 b2]. unfold coord_lt. simpl. intros Hne Hlt.
  destruct (decide (a1 = b1)) as [->|]; [|lia].
  assert (a2 <> b2) by congruence. lia.
Qed.

Lemma elem_of_csr_insert_coords (e : entry) (l : list entry) (c : nat * nat) :
  c ∈ (csr_insert e l).*1 <-> c = e.1 \/ c ∈ l.*1.
Proof.
  induction l as [|e' l IH]; csimpl.
  - rewrite elem_of_cons, elem_of_nil. tauto.
  - destruct (decide (e.1 = e'.1)) as [Heq|Hne]; csimpl.
    + rewrite !elem_of_cons, Heq. tauto.
    + destruct (decide (coord_lt e.1 e'.1)); csimpl.
      * rewrite !elem_of_cons. tauto.
      * rewrite !elem_of_cons, IH. tauto.
Qed.

Lemma csr_insert_sorted (e : entry) (l : list entry) :
  StronglySorted coord_lt (l.*1) -> StronglySorted coord_lt ((csr_insert e l).*1).
Proof.
  induction l as [|e' l IH]; csimpl; intros Hs.
  - repeat constructor.
  - apply StronglySorted_cons in Hs as [Hall Hs].
    destruct (decide (e.1 = e'.1)) as [Heq|Hne]; csimpl.
    + by constructor.
    + destruct (decide (coord_lt e.1 e'.1)) as [Hlt|Hnlt]; csimpl.
      * constructor; [by constructor|].
        constructor; [done|].
        eapply Forall_impl; [exact Hall|]. intros c Hc.
        by eapply coord_lt_trans.
      * constructor; [by apply IH|].
        apply Forall_forall. intros c Hc.
        apply elem_of_csr_insert_coords in Hc as [-> | Hc].
        -- by apply coord_trichotomy.
        -- by eapply Forall_forall in Hall.
Qed.

Lemma fold_csr_insert_sorted (es acc : list entry) :
  StronglySorted coord_lt (acc.*1) ->
  StronglySorted coord_lt ((fold_left (fun acc e => csr_insert e acc) es acc).*1).
Proof.
  revert acc. induction es as [|e es IH]; intros acc Hs; simpl; [done|].
  by apply IH, csr_insert_sorted.
Qed.

Lemma canonical_sorted (es : list entry) :
  StronglySorted coord_lt ((canonical es).*1).
Proof. apply fold_csr_insert_sorted. constructor. Qed.

Lemma StronglySorted_coord_NoDup (cs : list (nat * nat)) :
  StronglySorted coord_lt cs -> NoDup cs.
Proof.
  induction 1 as [|c cs Hs IH Hall]; constructor; [|done].
  intros Hin. eapply Forall_forall in Hall; [|exact Hin].
  by apply coord_lt_irrefl in Hall.
Qed.

Lemma canonical_NoDup (es : list entry) : NoDup ((canonical es).*1).
Proof. apply StronglySorted_coord_NoDup, canonical_sorted. Qed.



(** ** Values per coordinate *)



Lemma value_at_csr_insert (e : entry) (l : list entry) (c : nat * nat) :
  (value_at (csr_insert e l) c == value_at (e :: l) c)%Q.
Proof.
  induction l as [|e' l IH]; simpl; [reflexivity|].
  destruct (decide (e.1 = e'.1)) as [Heq|Hne]; simpl.
  - rewrite Heq. destruct (decide (e'.1 = c)); ring.
  - destruct (decide (coord_lt e.1 e'.1)); simpl; [reflexivity|].
    rewrite IH. simpl. ring.
Qed.

Lemma value_at_fold_csr_insert (es acc : list entry) (c : nat * nat) :
  (value_at (fold_left (fun acc e => csr_insert e acc) es acc) c
   == value_at acc c + value_at es c)%Q.
Proof.
  revert acc. induction es as [|e es IH]; intros acc; simpl; [ring|].
  rewrite IH, value_at_csr_insert. simpl. ring.
Qed.

(** Conversion to CSR keeps the value at every coordinate. *)
Lemma value_at_canonical (es : list entry) (c : nat * nat) :
  (value_at (canonical es) c == value_at es c)%Q.
Proof. unfold canonical. rewrite value_at_fold_csr_insert. simpl. ring. Qed.




(** ** The pre-filter on users *)

Lemma coo_entries_tocoo (C : csr_matrix) : coo_entries (tocoo C) = csr_entries C.
Proof.
  unfold coo_entries, tocoo. simpl.
  induction (csr_entries C) as [|[[i j] v] l IH]; simpl; [done|]. by rewrite IH.
Qed.

Lemma coo_wf_tocoo (C : csr_matrix) : coo_wf (tocoo C).
Proof. unfold coo_wf, tocoo. simpl. by rewrite !length_map. Qed.

Lemma elem_of_nonzero_lt (v : list Q) (t : Z) (i : nat) :
  i ∈ nonzero_lt v t <-> exists q, v !! i = Some q /\ (q < inject_Z t)%Q.
Proof.
  unfold nonzero_lt.
  rewrite list_elem_of_In, in_map_iff. split.
  - intros ([i' q] & <- & Hin). apply filter_In in Hin as [Hin Hlt].
    apply list_elem_of_In, elem_of_lookup_zip_with in Hin
      as (k & x & y & [= <- <-] & Hx & Hy).
    apply lookup_seq in Hx as [-> _]. simpl in *. exists q. split; [done|].
    apply Qlt_alt. by destruct (q ?= inject_Z t)%Q.
  - intros (q & Hq & Hlt). exists (i, q). split; [done|].
    apply filter_In. split.
    + apply list_elem_of_In, elem_of_lookup_zip_with.
      exists i, i, q. split; [done|]. split; [|done].
      apply lookup_seq. split; [done|]. by eapply lookup_lt_Some.
    + cbn [snd]. apply Qlt_alt in Hlt. unfold Qcompare in *. by rewrite Hlt.
Qed.

Lemma elem_of_user_mask (C : csr_matrix) (t : Z) (i : nat) :
  i ∈ nonzero_lt (sum_axis1 C) t <->
  i < (csr_shape C).1 /\ (row_sum C i < inject_Z t)%Q.
Proof.
  rewrite elem_of_nonzero_lt. unfold sum_axis1.
  change (map ?f ?l) with (f <$> l). split.
  - intros (q & Hq & Hlt). rewrite list_lookup_fmap in Hq.
    destruct (seq 0 (csr_shape C).1 !! i) as [i'|] eqn:Hi; [|done].
    apply lookup_seq in Hi as [-> Hi]. injection Hq as <-. done.
  - intros [Hi Hlt]. exists (row_sum C i). split; [|done].
    rewrite list_lookup_fmap, lookup_seq_lt by done. done.
Qed.

Lemma elem_of_remove_users (M : coo_matrix) (t : Z) (e : entry) :
  e ∈ coo_entries (remove_users M t) <->
  e ∈ canonical (coo_entries M) /\
  ~ (e.2 == 0)%Q /\
  ~ (e.1.1 < (shape M).1 /\ (row_sum (tocsr M) e.1.1 < inject_Z t)%Q).
Proof.
  unfold remove_users. rewrite coo_entries_tocoo.
  unfold eliminate_zeros, set_rows_zero. simpl.
  rewrite list_elem_of_In, filter_In, <- list_elem_of_In.
  change (map ?f ?l) with (f <$> l). rewrite list_elem_of_fmap.
  rewrite negb_true_iff, <- not_true_iff_false, Qeq_bool_iff.
  rewrite <- (elem_of_user_mask (tocsr M) t).
  split.
  - intros [(e0 & -> & Hin) Hnz].
    case_bool_decide as Hmask; [by destruct Hnz|]. done.
  - intros (Hin & Hnz & Hmask). split; [|done].
    exists e. split; [|done]. by rewrite bool_decide_eq_false_2.
Qed.

Lemma List_filter_sublist {A} (f : A -> bool) (l : list A) :
  List.filter f l `sublist_of` l.
Proof.
  induction l as [|x l IH]; simpl; [constructor|].
  destruct (f x); by constructor.
Qed.

Lemma remove_users_NoDup (M : coo_matrix) (t : Z) :
  NoDup ((coo_entries (remove_users M t)).*1).
Proof.
  unfold remove_users. rewrite coo_entries_tocoo.
  unfold eliminate_zeros, set_rows_zero. simpl.
  eapply sublist_NoDup; [|apply fmap_sublist, List_filter_sublist].
  change (map ?f ?l) with (f <$> l). rewrite <- list_fmap_compose.
  rewrite (list_fmap_ext _ fst (canonical (coo_entries M))).
  - apply canonical_NoDup.
  - intros _ x _. simpl. by case_bool_decide.
Qed.

(** X2. With [min_ratings] other than 1 and [verbose=False], for any
    matrix, duplicates included: [split_urm] returns three matrices of the
    shape of the input whose entries, taken together as a multiset, are
    exactly the entries the pre-filter keeps, none stored with value 0. *)
Theorem split_urm_partitions_filtered (self : DataReader)
    (M : coo_matrix) (split_ratio : list Q) (t : Z) (g : RandomState) :
  t <> 1%Z ->
  is_probability_vector 3 split_ratio ->
  exists train test valid self' g',
    split_urm self (Some M) split_ratio t false g
      = (Ok (train, test, valid, self'), g') /\
    csr_shape train = shape M /\ csr_shape test = shape M /\
    csr_shape valid = shape M /\
    csr_entries train ++ csr_entries test ++ csr_entries valid
      ≡ₚ coo_entries (remove_users M t) /\
    Forall (fun e : entry => ~ (e.2 == 0)%Q)
           (csr_entries train ++ csr_entries test ++ csr_entries valid).
Proof.
  intros Ht Hp. unfold split_urm. simpl.
  rewrite bool_decide_eq_true_2 by done.
  destruct (np_random_choice_accepts string g ["train"; "test"; "valid"]
              (Some split_ratio) (length (data (remove_users M t))))
    as [[choice g'] Hch]; [done | by intros q [= <-] |].
  rewrite Hch.
  apply np_random_choice_draws in Hch as [Hlen Hall].
  assert (Hperm :
    csr_entries (tocsr (coo_select (remove_users M t) (np_eq choice "train")))
      ++ csr_entries (tocsr (coo_select (remove_users M t) (np_eq choice "test")))
      ++ csr_entries (tocsr (coo_select (remove_users M t) (np_eq choice "valid")))
    ≡ₚ coo_entries (remove_users M t)).
  { rewrite !tocsr_select_perm by apply remove_users_NoDup.
    apply mask_select_three; [|done].
    rewrite length_coo_entries; [done | apply coo_wf_tocoo]. }
  eexists _, _, _, _, _. split; [reflexivity|].
  split; [done|]. split; [done|]. split; [done|]. split; [exact Hperm|].
  rewrite Hperm. apply Forall_forall. intros e He.
  by apply elem_of_remove_users in He as (_ & Hnz & _).
Qed.

(** ** What the parser returns *)







(** ** Building without removal *)

(** Every value of an array is a key of the mapping built from its unique
    values, and the index it gets decodes to it. *)
Lemma series_map_unique (a : list Z) :
  exists idx,
    mapM id (series_map (dict_zip_range (np_unique a)) a) = Some idx /\
    Forall2 (fun x i => np_unique a !! i = Some x) a idx.
Proof.
  destruct (mapM_is_Some_2 id (series_map (dict_zip_range (np_unique a)) a))
    as [idx Hidx].
  { unfold series_map. change (map ?f ?l) with (f <$> l).
    apply Forall_fmap, Forall_forall. intros x Hx. simpl.
    apply dict_zip_range_is_Some; [apply NoDup_np_unique|].
    by apply elem_of_np_unique. }
  exists idx. split; [done|].
  apply mapM_Some in Hidx. unfold series_map in Hidx.
  change (map ?f ?l) with (f <$> l) in Hidx. apply Forall2_fmap_l in Hidx.
  eapply Forall2_impl; [exact Hidx|]. intros x i Hi. simpl in Hi.
  by apply dict_zip_range_lookup in Hi; [|apply NoDup_np_unique].
Qed.

(** X4. With [remove_top_pop <= 0] the build cannot fail on parsed
    arrays: it returns a matrix of shape (distinct users, distinct items)
    with one entry per interaction, in file order, whose value is the
    rating (1.0 when implicit) and whose row and column index decode to
    the interaction's user and item id through the sorted unique ids; the
    mappings are the ones built from those sorted ids. *)
Theorem build_URM_no_removal (rows cols : list Z) (d : list Q) (implicit : bool)
    (r : Q) :
  length rows = length d -> length cols = length d -> (r <= 0)%Q ->
  exists M,
    build_URM_arrays rows cols d implicit r
      = Ok (M, dict_zip_range (np_unique rows), dict_zip_range (np_unique cols)) /\
    coo_wf M /\
    shape M = (length (np_unique rows), length (np_unique cols)) /\
    data M = (if implicit then np_ones (length d) else d) /\
    Forall2 (fun u i => np_unique rows !! i = Some u) rows (row M) /\
    Forall2 (fun c j => np_unique cols !! j = Some c) cols (col M).
Proof.
  intros Hlr Hlc Hr. apply Qle_bool_iff in Hr.
  destruct (series_map_unique rows) as (coo_rows & Hrows & Hdr).
  destruct (series_map_unique cols) as (coo_cols & Hcols & Hdc).
  exists (mk_coo (if implicit then np_ones (length d) else d) coo_rows coo_cols
                 (length (np_unique rows), length (np_unique cols))).
  split.
  - unfold build_URM_arrays, drop_top_popular. rewrite Hr. simpl.
    unfold sps_coo_matrix. by rewrite Hrows, Hcols.
  - split; [|done].
    unfold coo_wf. simpl. apply Forall2_length in Hdr, Hdc.
    rewrite <- Hdr, <- Hdc.
    destruct implicit; unfold np_ones; rewrite ?length_replicate; lia.
Qed.

(** ** No empty row and no empty column *)

Lemma drop_top_popular_lengths (rows cols : list Z) (d : list Q) (r : Q)
    unique_items cols' rows' d' :
  length rows = length d -> length cols = length d ->
  drop_top_popular rows cols d r = (unique_items, cols', rows', d') ->
  length rows' = length d' /\ length cols' = length d'.
Proof.
  intros Hlr Hlc. unfold drop_top_popular.
  destruct (negb (Qle_bool r 0)); intros [= <- <- <- <-]; [|done].
  unfold frombuffer_int32.
  split; apply length_mask_select_eq; by rewrite length_map.
Qed.

Lemma elem_of_mask_select_map {A B} (f : A -> B) (P : A -> bool) (l : list A) (x : A) :
  x ∈ l -> P x = true -> f x ∈ mask_select (map f l) (map P l).
Proof.
  induction l as [|y l IH]; intros Hx HP; [by apply elem_of_nil in Hx|].
  apply elem_of_cons in Hx as [<- | Hx]; simpl.
  - rewrite HP. left.
  - destruct (P y); [right|]; by apply IH.
Qed.

(** Every item that stays has an interaction that stays, when every
    interaction that stays is of an item that stays. *)
Lemma drop_top_popular_covers (rows cols : list Z) (d : list Q) (r : Q)
    unique_items cols' rows' d' :
  Forall (fun c => (0 <= c < 2 ^ 32)%Z) cols ->
  drop_top_popular rows cols d r = (unique_items, cols', rows', d') ->
  Forall (fun c => c ∈ unique_items) cols' ->
  forall c, c ∈ unique_items -> c ∈ cols'.
Proof.
  intros Hrange Hdrop Hall c Hc.
  destruct (NoDup_kept_items _ _ _ _ _ _ _ _ Hdrop) as [_ Hsub].
  pose proof (Hsub c Hc) as Hin.
  revert Hdrop. unfold drop_top_popular.
  destruct (negb (Qle_bool r 0)); intros Heq;
    injection Heq as Hui Hc' _ _; [|by subst].
  rewrite Hui in Hc'. subst cols'.
  set (wrap := fun x : Z => if (x <? 2 ^ 31)%Z then x else (x - 2 ^ 32)%Z).
  assert (Hw : wrap c ∈ mask_select (frombuffer_int32 cols) (np_isin cols unique_items)).
  { unfold frombuffer_int32, np_isin.
    apply (elem_of_mask_select_map wrap (fun x => bool_decide (x ∈ unique_items)));
      [done | by apply bool_decide_eq_true_2]. }
  assert (Hwc : wrap c ∈ cols).
  { apply Hsub. by eapply Forall_forall in Hall. }
  eapply Forall_forall in Hwc; [|exact Hrange].
  eapply Forall_forall in Hin; [|exact Hrange].
  simpl in Hwc, Hin.
  assert (Heq : wrap c = c).
  { unfold wrap in *. destruct (Z.ltb_spec c (2 ^ 31)); [done | lia]. }
  by rewrite Heq in Hw.
Qed.

Lemma Forall2_dict_tight (keys ids : list Z) (idx : list nat) :
  NoDup keys ->
  Forall2 (fun x i => dict_zip_range keys !! x = Some i) ids idx ->
  (forall x, x ∈ keys -> x ∈ ids) ->
  Forall (fun i => i < length keys) idx /\
  (forall i, i < length keys -> i ∈ idx).
Proof.
  intros Hnd HF Hcov. split.
  - apply Forall_forall. intros i Hi. apply list_elem_of_lookup in Hi as [k Hk].
    destruct (Forall2_lookup_r _ _ _ _ _ HF Hk) as (x & _ & Hx).
    apply dict_zip_range_lookup in Hx; [|done]. by eapply lookup_lt_Some.
  - intros i Hi. apply lookup_lt_is_Some in Hi as [x Hx].
    assert (Hin : x ∈ ids) by (apply Hcov; by eapply list_elem_of_lookup_2).
    apply list_elem_of_lookup in Hin as [k Hk].
    destruct (Forall2_lookup_l _ _ _ _ _ HF Hk) as (i' & Hi' & Hd).
    apply dict_zip_range_lookup in Hd; [|done].
    assert (i' = i) by (by eapply NoDup_lookup). subst.
    by eapply list_elem_of_lookup_2.
Qed.

(** X5. Whatever the removal fraction, a matrix that [build_URM] returns
    for parsed arrays has its three arrays of one length, every row and
    column index inside its shape, and neither an empty row nor an empty
    column: each index below the shape is the index of a stored entry. *)
Theorem build_URM_indices_tight (rows cols : list Z) (d : list Q)
    (implicit : bool) (r : Q) (M : coo_matrix) (r2u c2i : gmap Z nat) :
  length rows = length d -> length cols = length d ->
  Forall (fun c => (0 <= c < 2 ^ 32)%Z) cols ->
  build_URM_arrays rows cols d implicit r = Ok (M, r2u, c2i) ->
  coo_wf M /\
  Forall (fun i => i < (shape M).1) (row M) /\
  Forall (fun j => j < (shape M).2) (col M) /\
  (forall i, i < (shape M).1 -> i ∈ row M) /\
  (forall j, j < (shape M).2 -> j ∈ col M).
Proof.
  intros Hlr Hlc Hrange Hbuild.
  apply build_URM_arrays_Ok in Hbuild
    as (ui & c' & r' & d' & Hdrop & -> & -> & Hshape & Hdata & Hrows & Hcols).
  destruct (NoDup_kept_items _ _ _ _ _ _ _ _ Hdrop) as [Hnd Hsub].
  assert (Hd0 : length (if implicit then np_ones (length d) else d) = length d)
    by (destruct implicit; [apply length_replicate | done]).
  destruct (drop_top_popular_lengths
              rows cols (if implicit then np_ones (length d) else d) r ui c' r' d')
    as [Hl1 Hl2]; [by rewrite Hd0 | by rewrite Hd0 | exact Hdrop |].
  destruct (Forall2_dict_tight _ _ _ (NoDup_np_unique r') Hrows) as [Hr1 Hr2].
  { intros x. apply elem_of_np_unique. }
  destruct (Forall2_dict_tight _ _ _ Hnd Hcols) as [Hc1 Hc2].
  { eapply drop_top_popular_covers; [exact Hrange | exact Hdrop |].
    apply Forall_forall. intros c Hc. apply list_elem_of_lookup in Hc as [k Hk].
    destruct (Forall2_lookup_l _ _ _ _ _ Hcols Hk) as (j & _ & Hj).
    apply dict_zip_range_is_Some; [done | eauto]. }
  rewrite Hshape. simpl. split; [|done].
  unfold coo_wf. rewrite Hdata. apply Forall2_length in Hrows, Hcols. lia.
Qed.

(** ** The getters *)

Lemma swap_entry_involutive (e : entry) : swap_entry (swap_entry e) = e.
Proof. by destruct e as [[i j] v]. Qed.

Lemma NoDup_swap_coords (es : list entry) :
  NoDup (es.*1) -> NoDup ((swap_entry <$> es).*1).
Proof.
  intros Hnd. rewrite <- list_fmap_compose.
  rewrite (list_fmap_ext _ ((fun c : nat * nat => (c.2, c.1)) ∘ fst) es)
    by (by intros _ [[i j] v] _).
  rewrite list_fmap_compose. apply NoDup_fmap_2; [|done].
  intros [a b] [a' b'] [= -> ->]. done.
Qed.

Lemma value_at_swap (es : list entry) (i j : nat) :
  value_at (swap_entry <$> es) (j, i) = value_at es (i, j).
Proof.
  induction es as [|[[a b] v] es IH]; csimpl; [done|].
  rewrite IH. unfold swap_entry. simpl.
  destruct (decide ((b, a) = (j, i))), (decide ((a, b) = (i, j)));
    congruence.
Qed.

Lemma sorted_by_coords (l : list entry) :
  StronglySorted coord_lt (l.*1) ->
  StronglySorted (fun a b : entry => coord_lt a.1 b.1) l.
Proof.
  induction l as [|e l IH]; csimpl; intros Hs; [constructor|].
  apply StronglySorted_cons in Hs as [Hall Hs].
  constructor; [by apply IH|]. rewrite Forall_fmap in Hall. exact Hall.
Qed.

(** Two CSR forms with the same stored entries are equal. *)
Lemma sorted_coords_unique (l1 l2 : list entry) :
  StronglySorted coord_lt (l1.*1) -> StronglySorted coord_lt (l2.*1) ->
  l1 ≡ₚ l2 -> l1 = l2.
Proof.
  intros H1 H2 Hp.
  apply (StronglySorted_unique_strong (fun a b : entry => coord_lt a.1 b.1));
    [| by apply sorted_by_coords | by apply sorted_by_coords | done].
  intros x1 x2 _ _ Ha Hb. exfalso.
  eapply coord_lt_irrefl, coord_lt_trans; [exact Ha | exact Hb].
Qed.

Lemma csr_transpose_involutive (C : csr_matrix) :
  StronglySorted coord_lt ((csr_entries C).*1) ->
  csr_transpose (csr_transpose C) = C.
Proof.
  intros Hs. destruct C as [es [n m]]. unfold csr_transpose. simpl in *. f_equal.
  assert (Hnd : NoDup (es.*1)) by (by apply StronglySorted_coord_NoDup).
  assert (H1 : canonical (swap_entry <$> es) ≡ₚ swap_entry <$> es)
    by (by apply canonical_perm, NoDup_swap_coords).
  assert (H2 : swap_entry <$> (swap_entry <$> es) = es).
  { rewrite <- list_fmap_compose.
    rewrite (list_fmap_ext _ id es) by (intros _ e _; apply swap_entry_involutive).
    apply list_fmap_id. }
  apply sorted_coords_unique; [apply canonical_sorted | done |].
  rewrite canonical_perm.
  - by rewrite H1, H2.
  - apply NoDup_swap_coords. rewrite H1. by apply NoDup_swap_coords.
Qed.

Lemma split_urm_Ok (self : DataReader) (URM0 : option coo_matrix) (ratio : list Q)
    (t : Z) (v : bool) (g g' : RandomState) train test valid self' :
  split_urm self URM0 ratio t v g = (Ok (train, test, valid, self'), g') ->
  self' = set_splits self train test valid /\
  exists (M : coo_matrix) (m1 m2 m3 : list bool),
    train = tocsr (coo_select M m1) /\ test = tocsr (coo_select M m2) /\
    valid = tocsr (coo_select M m3).
Proof.
  unfold split_urm.
  destruct (mbind _ _) as [M|]; [|done].
  destruct (np_random_choice _ _ _ _ _) as [[choice g1]|]; [|done].
  intros [= <- <- <- <- <-]. split; [done|]. by eexists _, _, _, _.
Qed.

(** X6. After [split_urm] has returned, the three getters give back the
    matrices it returned, and with [transposed=True] their transposes in
    CSR form: canonical, with the value of the original at the mirrored
    coordinate, and transposing again gives the original back.  The full
    matrix the reader holds is not changed by the split. *)
Theorem split_urm_then_getters (self : DataReader) (URM0 : option coo_matrix)
    (ratio : list Q) (t : Z) (v : bool) (g g' : RandomState)
    (train test valid : csr_matrix) (self' : DataReader) :
  split_urm self URM0 ratio t v g = (Ok (train, test, valid, self'), g') ->
  get_URM_train self' false = Ok train /\
  get_URM_test self' false = Ok test /\
  get_URM_validation self' false = Ok valid /\
  get_URM_train self' true = Ok (csr_transpose train) /\
  get_URM_test self' true = Ok (csr_transpose test) /\
  get_URM_validation self' true = Ok (csr_transpose valid) /\
  URM self' = URM self /\
  Forall (fun C =>
            csr_transpose (csr_transpose C) = C /\
            csr_shape (csr_transpose C) = ((csr_shape C).2, (csr_shape C).1) /\
            StronglySorted coord_lt ((csr_entries (csr_transpose C)).*1) /\
            forall i j, (value_at (csr_entries (csr_transpose C)) (j, i)
                         == value_at (csr_entries C) (i, j))%Q)
         [train; test; valid].
Proof.
  intros Hsplit.
  apply split_urm_Ok in Hsplit as (-> & M & m1 & m2 & m3 & -> & -> & ->).
  do 7 (split; [done|]).
  assert (Hone : forall m,
    let C := tocsr (coo_select M m) in
    csr_transpose (csr_transpose C) = C /\
    csr_shape (csr_transpose C) = ((csr_shape C).2, (csr_shape C).1) /\
    StronglySorted coord_lt ((csr_entries (csr_transpose C)).*1) /\
    forall i j, (value_at (csr_entries (csr_transpose C)) (j, i)
                 == value_at (csr_entries C) (i, j))%Q).
  { intros m C. split; [apply csr_transpose_involutive, canonical_sorted|].
    split; [done|]. split; [apply canonical_sorted|].
    intros i j. unfold csr_transpose. simpl.
    by rewrite value_at_canonical, value_at_swap. }
  repeat constructor; apply Hone.
Qed.

(** ** A successful download *)

Lemma split_from_nonempty (sep : string) (skip : nat) (cur s : string) :
  split_from sep skip cur s <> [].
Proof.
  revert skip cur. induction s as [|c s IH]; intros skip cur; [done|].
  cbn [split_from]. destruct skip; [|apply IH].
  destruct (String.prefix sep (String c s)); [done | apply IH].
Qed.




(** ** The order of the lines *)

Lemma np_unique_Permutation (a b : list Z) : a ≡ₚ b -> np_unique a = np_unique b.
Proof.
  intros Hp.
  apply (StronglySorted_unique_strong Z.lt);
    [intros; lia | apply np_unique_sorted | apply np_unique_sorted |].
  apply NoDup_Permutation; [apply NoDup_np_unique | apply NoDup_np_unique |].
  intros x. by rewrite !elem_of_np_unique, Hp.
Qed.

Lemma np_unique_counts_Permutation (a b : list Z) :
  a ≡ₚ b -> np_unique_counts a = np_unique_counts b.
Proof.
  intros Hp. unfold np_unique_counts. rewrite (np_unique_Permutation a b Hp).
  apply map_ext. intros x. by apply Permutation_count_occ.
Qed.

(** The interactions as triples (user, item, rating); the three arrays
    are the columns of the list. *)
Lemma mask_select_triples_Permutation (T1 T2 : list (Z * Z * Q)) (w : Z -> Z)
    (kept : list Z) :
  T1 ≡ₚ T2 ->
  zip (zip (mask_select (map w (T1.*1.*1)) (np_isin (T1.*1.*2) kept))
           (mask_select (map w (T1.*1.*2)) (np_isin (T1.*1.*2) kept)))
      (mask_select (T1.*2) (np_isin (T1.*1.*2) kept))
  ≡ₚ zip (zip (mask_select (map w (T2.*1.*1)) (np_isin (T2.*1.*2) kept))
              (mask_select (map w (T2.*1.*2)) (np_isin (T2.*1.*2) kept)))
         (mask_select (T2.*2) (np_isin (T2.*1.*2) kept)).
Proof.
  induction 1 as [|t T1 T2 _ IH|t1 t2 T|T1 T2 T3 _ IH1 _ IH2]; csimpl.
  - done.
  - case_bool_decide; simpl; [by constructor | done].
  - repeat case_bool_decide; simpl; try done. apply perm_swap.
  - by rewrite IH1.
Qed.

Lemma drop_top_popular_Permutation (T1 T2 : list (Z * Z * Q)) (r : Q)
    ui1 c1 r1 e1 ui2 c2 r2 e2 :
  T1 ≡ₚ T2 ->
  drop_top_popular (T1.*1.*1) (T1.*1.*2) (T1.*2) r = (ui1, c1, r1, e1) ->
  drop_top_popular (T2.*1.*1) (T2.*1.*2) (T2.*2) r = (ui2, c2, r2, e2) ->
  ui1 = ui2 /\ zip (zip r1 c1) e1 ≡ₚ zip (zip r2 c2) e2.
Proof.
  intros Hp. unfold drop_top_popular.
  assert (Hc : T1.*1.*2 ≡ₚ T2.*1.*2) by (by rewrite Hp).
  rewrite (np_unique_Permutation _ _ Hc), (np_unique_counts_Permutation _ _ Hc).
  destruct (negb (Qle_bool r 0)); intros [= <- <- <- <-] [= <- <- <- <-].
  - split; [done|]. unfold frombuffer_int32.
    by apply mask_select_triples_Permutation.
  - split; [done|].
    assert (Hz : forall T : list (Z * Z * Q), zip (zip (T.*1.*1) (T.*1.*2)) (T.*2) = T).
    { intros T. induction T as [|[[u i] v] T IH]; csimpl; [done|]. by rewrite IH. }
    by rewrite !Hz.
Qed.

Lemma zip3_proj {A B C} (a : list A) (b : list B) (c : list C) :
  length a = length c -> length b = length c ->
  (zip (zip a b) c).*1.*1 = a /\ (zip (zip a b) c).*1.*2 = b /\ (zip (zip a b) c).*2 = c.
Proof.
  revert b c. induction a as [|x a IH]; intros [|y b] [|z c] Ha Hb; try done.
  destruct (IH b c) as (H1 & H2 & H3); [simpl in *; lia | simpl in *; lia |].
  csimpl. by rewrite H1, H2, H3.
Qed.

Lemma zip3_fmap {A B C A' B'} (f : A -> A') (h : B -> B')
    (a : list A) (b : list B) (c : list C) :
  zip (zip (f <$> a) (h <$> b)) c
  = (fun t : A * B * C => ((f t.1.1, h t.1.2), t.2)) <$> zip (zip a b) c.
Proof.
  revert b c. induction a as [|x a IH]; intros [|y b] [|z c]; csimpl; try done.
  by rewrite IH.
Qed.

Lemma Forall2_lookup_fmap (m : gmap Z nat) (xs : list Z) (idx : list nat) :
  Forall2 (fun x i => m !! x = Some i) xs idx ->
  idx = (fun x => default 0 (m !! x)) <$> xs.
Proof.
  induction 1 as [|x i xs idx Hx _ IH]; csimpl; [done|]. by rewrite Hx, IH.
Qed.

(** X8. The build does not depend on the order of the interactions in
    the file.  For two files whose interactions are the same up to their
    order: if the build succeeds on one it succeeds on the other, with the
    same two mappings, the same shape and the same stored entries up to
    their order; when no (user, item) pair occurs twice, the CSR forms of
    the two matrices are equal. *)
Theorem build_URM_order_independent (T1 T2 : list (Z * Z * Q)) (implicit : bool)
    (r : Q) (M1 : coo_matrix) (r2u c2i : gmap Z nat) :
  T1 ≡ₚ T2 ->
  build_URM_arrays (T1.*1.*1) (T1.*1.*2) (T1.*2) implicit r = Ok (M1, r2u, c2i) ->
  exists M2,
    build_URM_arrays (T2.*1.*1) (T2.*1.*2) (T2.*2) implicit r = Ok (M2, r2u, c2i) /\
    shape M2 = shape M1 /\
    coo_entries M2 ≡ₚ coo_entries M1 /\
    (NoDup ((coo_entries M1).*1) -> tocsr M2 = tocsr M1).
Proof.
  intros Hp Hbuild.
  (* the triples with the values the build works on *)
  set (val := fun T : list (Z * Z * Q) =>
                if implicit then np_ones (length (T.*2)) else T.*2).
  set (tr := fun T : list (Z * Z * Q) =>
               if implicit then (fun t : Z * Z * Q => (t.1, 1%Q)) <$> T else T).
  assert (Htr1 : forall T, (tr T).*1 = T.*1).
  { intros T. unfold tr. destruct implicit; [|done].
    rewrite <- list_fmap_compose. by apply list_fmap_ext. }
  assert (Htr2 : forall T, (tr T).*2 = val T).
  { intros T. unfold tr, val. destruct implicit; [|done].
    unfold np_ones. rewrite length_fmap.
    induction T as [|t T IH]; csimpl; [done|]. by rewrite IH. }
  assert (Hptr : tr T1 ≡ₚ tr T2) by (unfold tr; destruct implicit; by rewrite Hp).
  apply build_URM_arrays_Ok in Hbuild
    as (ui & c1 & r1 & e1 & Hdrop1 & -> & -> & Hshape & Hdata & Hrows & Hcols).
  fold (val T1) in Hdrop1.
  destruct (drop_top_popular (T2.*1.*1) (T2.*1.*2) (val T2) r)
    as [[[ui2 c2] r2] e2] eqn:Hdrop2.
  assert (Hvl : forall T, length (val T) = length T).
  { intros T. unfold val, np_ones.
    destruct implicit; by rewrite ?length_replicate, length_fmap. }
  assert (Hl1 : length r1 = length e1 /\ length c1 = length e1).
  { eapply drop_top_popular_lengths; [| |exact Hdrop1];
      by rewrite Hvl, !length_fmap. }
  assert (Hl2 : length r2 = length e2 /\ length c2 = length e2).
  { eapply drop_top_popular_lengths; [| |exact Hdrop2];
      by rewrite Hvl, !length_fmap. }
  destruct Hl1 as [Hlr1 Hlc1], Hl2 as [Hlr2 Hlc2].
  assert (Hsame : ui = ui2 /\ zip (zip r1 c1) e1 ≡ₚ zip (zip r2 c2) e2).
  { apply (drop_top_popular_Permutation (tr T1) (tr T2) r); [done | |];
      by rewrite Htr1, Htr2. }
  destruct Hsame as [<- Hz].
  destruct (zip3_proj r1 c1 e1 Hlr1 Hlc1) as (Hpr1 & Hpc1 & _).
  destruct (zip3_proj r2 c2 e2 Hlr2 Hlc2) as (Hpr2 & Hpc2 & _).
  assert (Hrp : r2 ≡ₚ r1) by (by rewrite <- Hpr1, <- Hpr2, Hz).
  assert (Hcp : c2 ≡ₚ c1) by (by rewrite <- Hpc1, <- Hpc2, Hz).
  rewrite <- (np_unique_Permutation _ _ Hrp) in *.
  destruct (series_map_unique r2) as (coo_rows & Hmr & Hdr).
  destruct (mapM_is_Some_2 id (series_map (dict_zip_range ui) c2)) as [coo_cols Hmc].
  { unfold series_map. change (map ?f ?l) with (f <$> l).
    apply Forall_fmap. rewrite Hcp. apply Forall_forall. intros c Hc. simpl.
    apply list_elem_of_lookup in Hc as [k Hk].
    destruct (Forall2_lookup_l _ _ _ _ _ Hcols Hk) as (j & _ & Hj). eauto. }
  exists (mk_coo e2 coo_rows coo_cols (length (np_unique r2), length ui)).
  assert (Hb2 : build_URM_arrays (T2.*1.*1) (T2.*1.*2) (T2.*2) implicit r
                = Ok (mk_coo e2 coo_rows coo_cols (length (np_unique r2), length ui),
                      dict_zip_range (np_unique r2), dict_zip_range ui)).
  { unfold build_URM_arrays. fold (val T2). rewrite Hdrop2.
    unfold sps_coo_matrix. by rewrite Hmr, Hmc. }
  split; [exact Hb2|]. split; [by rewrite Hshape|].
  assert (Hentries : coo_entries (mk_coo e2 coo_rows coo_cols
                                         (length (np_unique r2), length ui))
                     ≡ₚ coo_entries M1).
  { apply build_URM_arrays_Ok in Hb2
      as (ui' & c2' & r2' & e2' & Hdrop2' & _ & _ & _ & _ & Hrows2 & Hcols2).
    fold (val T2) in Hdrop2'. rewrite Hdrop2 in Hdrop2'.
    injection Hdrop2' as <- <- <- <-.
    apply Forall2_lookup_fmap in Hrows, Hcols, Hrows2, Hcols2.
    unfold coo_entries. simpl in *.
    rewrite Hrows, Hcols, Hrows2, Hcols2, Hdata, !zip3_fmap.
    by apply fmap_Permutation. }
  split; [exact Hentries|].
  intros Hnd. unfold tocsr. simpl. rewrite Hshape. f_equal.
  apply sorted_coords_unique; [apply canonical_sorted | apply canonical_sorted |].
  rewrite !canonical_perm; [done | done |].
  by rewrite Hentries.
Qed.

(** ** What the pre-filter leaves *)

Lemma py_sum_sum_Q (l : list Q) : (py_sum l == sum_Q_with id l)%Q.
Proof.
  unfold py_sum.
  assert (H : forall a, (fold_left Qplus l a == a + sum_Q_with id l)%Q).
  { induction l as [|x l IH]; intros a; simpl; [ring|]. rewrite IH. unfold id. ring. }
  rewrite H. ring.
Qed.

(** The sum of a row, over the stored entries. *)
Lemma row_sum_total (C : csr_matrix) (i : nat) :
  (row_sum C i
   == sum_Q_with (fun e : entry => if Nat.eqb e.1.1 i then e.2 else 0) (csr_entries C))%Q.
Proof.
  unfold row_sum. rewrite py_sum_sum_Q.
  induction (csr_entries C) as [|e l IH]; simpl; [reflexivity|].
  destruct (Nat.eqb e.1.1 i); simpl; rewrite IH; unfold id; ring.
Qed.

Lemma row_total_csr_insert (e : entry) (l : list entry) (i : nat) :
  (sum_Q_with (fun e : entry => if Nat.eqb e.1.1 i then e.2 else 0) (csr_insert e l)
   == sum_Q_with (fun e : entry => if Nat.eqb e.1.1 i then e.2 else 0) (e :: l))%Q.
Proof.
  induction l as [|e' l IH]; simpl; [reflexivity|].
  destruct (decide (e.1 = e'.1)) as [Heq|Hne]; simpl.
  - rewrite Heq. destruct (Nat.eqb e'.1.1 i); ring.
  - destruct (decide (coord_lt e.1 e'.1)); simpl; [reflexivity|].
    rewrite IH. simpl. ring.
Qed.

Lemma row_total_canonical (es : list entry) (i : nat) :
  (sum_Q_with (fun e : entry => if Nat.eqb e.1.1 i then e.2 else 0) (canonical es)
   == sum_Q_with (fun e : entry => if Nat.eqb e.1.1 i then e.2 else 0) es)%Q.
Proof.
  unfold canonical.
  assert (H : forall acc,
    (sum_Q_with (fun e : entry => if Nat.eqb e.1.1 i then e.2 else 0)
                (fold_left (fun acc e => csr_insert e acc) es acc)
     == sum_Q_with (fun e : entry => if Nat.eqb e.1.1 i then e.2 else 0) acc
        + sum_Q_with (fun e : entry => if Nat.eqb e.1.1 i then e.2 else 0) es)%Q).
  { induction es as [|e es IH]; intros acc; simpl; [ring|].
    rewrite IH, row_total_csr_insert. simpl. ring. }
  rewrite H. simpl. ring.
Qed.










(** ** The pre-filter on an implicit matrix *)

Lemma row_total_ones (es : list entry) (i : nat) :
  Forall (fun e : entry => e.2 = 1%Q) es ->
  (sum_Q_with (fun e : entry => if Nat.eqb e.1.1 i then e.2 else 0) es
   == inject_Z (Z.of_nat (count_occ Nat.eq_dec (es.*1.*1) i)))%Q.
Proof.
  induction 1 as [|e es He _ IH]; csimpl; [reflexivity|].
  rewrite IH, He.
  destruct (Nat.eq_dec e.1.1 i) as [Heq|Hne].
  - rewrite (proj2 (Nat.eqb_eq _ _) Heq).
    rewrite Nat2Z.inj_succ. unfold Z.succ. rewrite inject_Z_plus. ring.
  - rewrite (proj2 (Nat.eqb_neq _ _) Hne). ring.
Qed.

Lemma csr_insert_positive (e : entry) (l : list entry) :
  (0 < e.2)%Q -> Forall (fun e : entry => (0 < e.2)%Q) l ->
  Forall (fun e : entry => (0 < e.2)%Q) (csr_insert e l).
Proof.
  intros He. induction 1 as [|e' l He' Hl IH]; simpl; [by repeat constructor|].
  destruct (decide (e.1 = e'.1)).
  - constructor; [|done]. simpl.
    rewrite <- (Qplus_0_r 0). by apply Qplus_lt_le_compat; [|apply Qlt_le_weak].
  - destruct (decide (coord_lt e.1 e'.1)); by repeat constructor.
Qed.

Lemma canonical_positive (es : list entry) :
  Forall (fun e : entry => (0 < e.2)%Q) es ->
  Forall (fun e : entry => (0 < e.2)%Q) (canonical es).
Proof.
  unfold canonical.
  assert (H : forall acc, Forall (fun e : entry => (0 < e.2)%Q) acc ->
            Forall (fun e : entry => (0 < e.2)%Q) es ->
            Forall (fun e : entry => (0 < e.2)%Q)
                   (fold_left (fun acc e => csr_insert e acc) es acc)).
  { induction es as [|e es IH]; intros acc Hacc Hes; simpl; [done|].
    inversion Hes; subst. apply IH; [by apply csr_insert_positive | done]. }
  intros Hes. by apply H.
Qed.

(** X10. On a matrix whose stored values are all 1.0, as [build_URM]
    makes them with [implicit=True], the sum of a row is the number of
    interactions of the user, and the pre-filter of [split_urm] removes
    exactly the users with fewer than [min_ratings] interactions: an
    entry of the CSR form stays if and only if its row is not a row of the
    matrix with fewer than [min_ratings] stored entries. *)
Theorem remove_users_implicit_counts (M : coo_matrix) (t : Z) (e : entry) :
  coo_wf M ->
  Forall (fun v => v = 1%Q) (data M) ->
  (forall i, (row_sum (tocsr M) i
              == inject_Z (Z.of_nat (count_occ Nat.eq_dec (row M) i)))%Q) /\
  (e ∈ coo_entries (remove_users M t) <->
   e ∈ canonical (coo_entries M) /\
   ~ (e.1.1 < (shape M).1 /\
      (Z.of_nat (count_occ Nat.eq_dec (row M) e.1.1) < t)%Z)).
Proof.
  intros [Hwr Hwc] Hones.
  destruct (zip3_proj (row M) (col M) (data M) Hwr Hwc) as (Hrow & _ & Hdata).
  fold (coo_entries M) in Hrow, Hdata.
  assert (Hall : Forall (fun e : entry => e.2 = 1%Q) (coo_entries M)).
  { rewrite <- Hdata in Hones. by rewrite Forall_fmap in Hones. }
  assert (Hsum : forall i, (row_sum (tocsr M) i
              == inject_Z (Z.of_nat (count_occ Nat.eq_dec (row M) i)))%Q).
  { intros i. rewrite row_sum_total. unfold tocsr. simpl.
    by rewrite row_total_canonical, row_total_ones, Hrow. }
  split; [exact Hsum|].
  rewrite elem_of_remove_users.
  assert (Hlt : forall i, (row_sum (tocsr M) i < inject_Z t)%Q <->
                          (Z.of_nat (count_occ Nat.eq_dec (row M) i) < t)%Z).
  { intros i. by rewrite Hsum, <- Zlt_Qlt. }
  rewrite Hlt. split.
  - intros (Hin & _ & Hkeep). done.
  - intros (Hin & Hkeep). split; [done|]. split; [|done].
    assert (Hpos : (0 < e.2)%Q).
    { eapply (Forall_forall (fun e : entry => (0 < e.2)%Q)); [|exact Hin].
      apply canonical_positive.
      eapply Forall_impl; [exact Hall|]. intros x ->. done. }
    intros Hz. rewrite Hz in Hpos. by apply Qlt_irrefl in Hpos.
Qed.

End DataReader.

(* ================================================================== *)
(** * The concrete generator and sort meet their contracts *)

Lemma is_probability_vectorb_correct (n : nat) (p : list Q) :
  is_probability_vectorb n p = true <-> is_probability_vector n p.
Proof.
  unfold is_probability_vectorb, is_probability_vector.
  rewrite !andb_true_iff, Nat.eqb_eq, Qeq_bool_iff, forallb_forall, Forall_forall.
  split.
  - intros [[Hl Hf] Hs]. split; [done|]. split; [|done].
    intros x Hx. apply Qle_bool_iff, Hf. by apply list_elem_of_In.
  - intros (Hl & Hf & Hs). split; [split|]; try done.
    intros x Hx. apply Qle_bool_iff, Hf. by apply list_elem_of_In.
Qed.

Lemma tape_choice_draws :
  forall A g (a : list A) p size l g',
    tape_choice A g a p size = Some (l, g') ->
    length l = size /\ Forall (fun x => x ∈ a) l.
Proof.
  intros A g a p size l g'. unfold tape_choice.
  destruct (match p with Some q => _ | None => true end); [|done].
  destruct a as [|x a].
  - destruct size; [|done]. intros [= <- <-]. split; [done | constructor].
  - assert (Hlen : length (x :: a) <> 0) by done.
    revert Hlen. generalize (x :: a). clear a. intros a Hlen Heq.
    injection Heq as <- <-. split.
    + rewrite length_map, length_take, length_app, length_replicate. lia.
    + apply Forall_forall. intros y Hy.
      apply list_elem_of_In, in_map_iff in Hy as (i & <- & _).
      apply list_elem_of_In, nth_In.
      by apply Nat.mod_upper_bound.
Qed.

Lemma tape_choice_accepts :
  forall A g (a : list A) p size,
    a <> [] ->
    (forall q, p = Some q -> is_probability_vector (length a) q) ->
    is_Some (tape_choice A g a p size).
Proof.
  intros A g a p size Ha Hp. unfold tape_choice.
  destruct p as [q|].
  - rewrite (proj2 (is_probability_vectorb_correct _ _) (Hp q eq_refl)).
    destruct a; [done | eauto].
  - destruct a; [done | eauto].
Qed.

#[global] Instance key_le_total (a : list nat) : Total (key_le a).
Proof. intros i j. unfold key_le. lia. Qed.

Lemma argsort_merge_perm : forall a, argsort_merge a ≡ₚ seq 0 (length a).
Proof. intros a. apply merge_sort_Permutation. Qed.


(* ================================================================== *)
(** * The claims on concrete inputs *)

Lemma split_urm_partitions_entries_witness :
  exists train test valid self' g',
    split_urm (list nat) tape_choice sample_reader (Some small_matrix)
              [3 # 5; 1 # 5; 1 # 5]%Q 1 true [0; 1; 2]
      = (Ok (train, test, valid, self'), g') /\
    csr_shape train = (2, 2) /\ csr_shape test = (2, 2) /\ csr_shape valid = (2, 2) /\
    csr_nnz train + csr_nnz test + csr_nnz valid = 3 /\
    csr_entries train ++ csr_entries test ++ csr_entries valid
      ≡ₚ coo_entries small_matrix.
Proof.
  apply (split_urm_partitions_entries (list nat) tape_choice
           tape_choice_draws tape_choice_accepts sample_reader small_matrix).
  - split; reflexivity.
  - by apply (bool_decide_unpack _).
  - apply is_probability_vectorb_correct. reflexivity.
Defined.

(** At two entries stored at the same coordinates and the ratio
    [1.0, 0.0, 0.0], the train matrix returned holds their sum as one
    entry: the counts add up to 1, not to 2. *)
Lemma split_urm_sums_duplicates :
  coo_wf dup_matrix /\ is_probability_vector 3 [1; 0; 0]%Q /\
  exists train test valid self' g',
    split_urm (list nat) tape_choice sample_reader (Some dup_matrix)
              [1; 0; 0]%Q 1 false []
      = (Ok (train, test, valid, self'), g') /\
    csr_entries train = [((0, 0), 3%Q)] /\
    csr_entries test = [] /\ csr_entries valid = [] /\
    csr_nnz train + csr_nnz test + csr_nnz valid <> nnz dup_matrix /\
    ~ (csr_entries train ++ csr_entries test ++ csr_entries valid
         ≡ₚ coo_entries dup_matrix).
Proof.
  split; [split; reflexivity|].
  split; [apply is_probability_vectorb_correct; reflexivity|].
  eexists _, _, _, _, _. split; [vm_compute; reflexivity|].
  simpl. repeat split; try done.
  intros Hperm. apply Permutation_length in Hperm. discriminate.
Defined.

(** Two runs with the default configuration, seed 1234 both times, on the
    same matrix, the second starting where the first left the generator:
    the only entry goes to train in the first run and to test in the
    second. *)
Lemma same_seed_different_splits :
  construct_and_split (list nat) tape_choice sample_dataset default_InitArgs
                      one_rating_matrix empty_world [0; 1]
    = (Ok (mk_csr [((0, 0), 5%Q)] (1, 1), mk_csr [] (1, 1), mk_csr [] (1, 1)), [1]) /\
  construct_and_split (list nat) tape_choice sample_dataset default_InitArgs
                      one_rating_matrix empty_world [1]
    = (Ok (mk_csr [] (1, 1), mk_csr [((0, 0), 5%Q)] (1, 1), mk_csr [] (1, 1)), []).
Proof. split; vm_compute; reflexivity. Defined.

(** C3. With [min_ratings = 2] and [verbose=False], the user whose only
    entry is a rating of 5.0 is kept (the row sum 5.0 is not below 2) and
    the user with three ratings of 0.5 loses all entries (the row sum 1.5
    is below 2): the filter compares the sum of a user's ratings, not their
    number, with the threshold.  With [verbose=True] the call raises
    [TypeError] before any filtering. *)
Theorem split_urm_filters_on_rating_sum :
  (exists self',
     split_urm (list nat) tape_choice sample_reader (Some one_rating_matrix)
               [1; 0; 0]%Q 2 false []
     = (Ok (mk_csr [((0, 0), 5%Q)] (1, 1), mk_csr [] (1, 1), mk_csr [] (1, 1), self'),
        [])) /\
  (exists self',
     split_urm (list nat) tape_choice sample_reader (Some three_halves_matrix)
               [1; 0; 0]%Q 2 false []
     = (Ok (mk_csr [] (1, 3), mk_csr [] (1, 3), mk_csr [] (1, 3), self'), [])) /\
  split_urm (list nat) tape_choice sample_reader (Some one_rating_matrix)
            [1; 0; 0]%Q 2 true []
  = (Raise TypeError, []).
Proof.
  split; [eexists; vm_compute; reflexivity|].
  split; [eexists; vm_compute; reflexivity|].
  vm_compute. reflexivity.
Qed.




(** An item id of 2^31 or more that stays after the removal is looked up
    under its signed reading, which is no key of [col_to_item]: the
    assembly of the matrix raises. *)
Example build_URM_large_item_id :
  build_URM_arrays argsort_merge [1; 1; 2]%Z [7; 7; 3000000000]%Z [1; 1; 1]%Q
                   false (1 # 2)
  = Raise ValueError.
Proof. vm_compute. reflexivity. Qed.

Lemma get_CV_folds_partitions_entries_witness :
  exists pairs g',
    get_CV_folds (list nat) tape_choice sample_reader (Some small_matrix) 2 [0; 1; 1]
      = (Ok pairs, g') /\
    length pairs = 2 /\
    Forall (fun p : csr_matrix * csr_matrix =>
              csr_shape p.1 = (2, 2) /\ csr_shape p.2 = (2, 2) /\
              csr_entries p.1 ++ csr_entries p.2 ≡ₚ coo_entries small_matrix /\
              (forall e, e ∈ csr_entries p.1 -> e ∉ csr_entries p.2)) pairs /\
    sum_list_with (fun p : csr_matrix * csr_matrix => csr_nnz p.2) pairs = 3.
Proof.
  apply (get_CV_folds_partitions_entries (list nat) tape_choice
           tape_choice_draws tape_choice_accepts sample_reader small_matrix 2).
  - split; reflexivity.
  - by apply (bool_decide_unpack _).
  - lia.
Defined.

(** At two entries stored at the same coordinates and one fold, the only
    test matrix holds their sum as one entry: the test sizes add up to 1,
    not to 2, and train and test together are not the entries of the
    input. *)
Lemma get_CV_folds_sums_duplicates :
  coo_wf dup_matrix /\
  exists train test g',
    get_CV_folds (list nat) tape_choice sample_reader (Some dup_matrix) 1 []
      = (Ok [(train, test)], g') /\
    csr_entries train = [] /\ csr_entries test = [((0, 0), 3%Q)] /\
    sum_list_with (fun p : csr_matrix * csr_matrix => csr_nnz p.2) [(train, test)]
      <> nnz dup_matrix /\
    ~ (csr_entries train ++ csr_entries test ≡ₚ coo_entries dup_matrix).
Proof.
  split; [split; reflexivity|].
  eexists _, _, _. split; [vm_compute; reflexivity|].
  simpl. split; [done|]. split; [done|]. split; [done|].
  intros Hperm. apply Permutation_length in Hperm. discriminate.
Defined.

(** The three-line file with the default columns and no removal: users
    {1, 2} and items {10, 20} get the indices {0, 1}, and the matrix has
    the entries (0,0,5.0), (1,0,3.0), (0,1,4.0). *)
Example build_URM_three_lines :
  exists self' w',
    build_URM argsort_merge dec_int dec_float sample_reader sample_ratings_path
              (kw_use_cols default_InitArgs) "," false false 0 sample_world
      = (Ok (small_matrix, self'), w') /\
    row_to_user self' = Some (dict_zip_range [1; 2]%Z) /\
    col_to_item self' = Some (dict_zip_range [10; 20]%Z).
Proof.
  eexists _, _. split; [vm_compute; reflexivity|].
  split; vm_compute; reflexivity.
Qed.

Lemma build_URM_implicit_all_ones_witness :
  Forall (fun v => v = 1%Q) [1; 1; 1]%Q /\
  exists self' w',
    build_URM argsort_merge dec_int dec_float sample_reader sample_ratings_path
              (kw_use_cols default_InitArgs) "," false true 0 sample_world
    = (Ok (mk_coo [1; 1; 1]%Q [0; 1; 0] [0; 0; 1] (2, 2), self'), w').
Proof.
  assert (Hrun : exists self' w',
             build_URM argsort_merge dec_int dec_float sample_reader sample_ratings_path
                       (kw_use_cols default_InitArgs) "," false true 0 sample_world
             = (Ok (mk_coo [1; 1; 1]%Q [0; 1; 0] [0; 0; 1] (2, 2), self'), w'))
    by (eexists _, _; vm_compute; reflexivity).
  split; [|exact Hrun].
  destruct Hrun as (self' & w' & Hrun).
  exact (proj1 (build_URM_implicit_all_ones argsort_merge dec_int dec_float
                  sample_reader sample_ratings_path (kw_use_cols default_InitArgs)
                  "," false 0 sample_world w' _ self' Hrun)).
Defined.


(** The server sends a body that is no archive: the call raises
    [BadZipFile] and the downloaded file is still on disk; no file was
    removed. *)
Lemma get_ratings_file_keeps_corrupt_archive :
  exists w',
    get_ratings_file corrupt_server sample_reader empty_world = (Raise BadZipFile, w') /\
    files w' !! ["datasets"; "sample"; "sample.zip"] = Some NotAnArchive /\
    events w' = [HttpGet "http://example.org/files/sample.zip";
                 FileWritten ["datasets"; "sample"; "sample.zip"];
                 FileOpened ["datasets"; "sample"; "sample.zip"]].
Proof. eexists. split; [vm_compute; reflexivity|]. split; reflexivity. Defined.

Lemma implicit_forced_but_rating_required_witness :
  let two_cols : gmap string Z := {[ "user_id" := 0%Z; "item_id" := 1%Z ]} in
  (exists self,
     __init__ sample_dataset (with_use_cols default_InitArgs two_cols) empty_world
       = (Ok self, empty_world) /\
     implicit self = true /\ use_cols self = two_cols) /\
  (exists e w',
     read_interactions dec_int dec_float sample_ratings_path two_cols "," false sample_world
       = (Raise e, w')) /\
  (exists e w',
     build_URM argsort_merge dec_int dec_float sample_reader sample_ratings_path
               two_cols "," false true 0 sample_world
       = (Raise e, w')).
Proof.
  intros two_cols.
  destruct (implicit_forced_but_rating_required argsort_merge dec_int dec_float)
    as [Hinit Hread].
  split.
  - apply (Hinit sample_dataset (with_use_cols default_InitArgs two_cols) empty_world);
      [reflexivity | reflexivity | vm_compute; lia].
  - apply (Hread sample_reader sample_ratings_path two_cols "," false true 0%Q
                 sample_world
                 [line "1,10,5.0"; line "2,10,3.0"; line "1,20,4.0"]);
      [reflexivity | reflexivity | discriminate].
Defined.

(** A file that is not empty but holds only its header line, read with
    [header=True] and a [use_cols] without 'rating': no data line is
    parsed, nothing raises, three empty sequences are returned. *)
Lemma header_only_file_parses :
  let two_cols : gmap string Z := {[ "user_id" := 0%Z; "item_id" := 1%Z ]} in
  two_cols !! "rating" = None /\
  files header_only_world !! sample_ratings_path = Some (TextFile [line "user,item"]) /\
  exists w',
    read_interactions dec_int dec_float sample_ratings_path two_cols "," true
                      header_only_world
    = (Ok ([], [], []), w').
Proof.
  intros two_cols. split; [reflexivity|]. split; [reflexivity|].
  eexists. vm_compute. reflexivity.
Defined.

(* ================================================================== *)
(** * The further properties on concrete inputs *)


(** With [min_ratings = 4] user 1, whose only rating is 3.0, goes. *)
Lemma split_urm_partitions_filtered_witness :
  coo_entries (remove_users small_matrix 4) = [((0, 0), 5%Q); ((0, 1), 4%Q)] /\
  exists train test valid self' g',
    split_urm (list nat) tape_choice sample_reader (Some small_matrix)
              [3 # 5; 1 # 5; 1 # 5]%Q 4 false [0; 1; 2]
      = (Ok (train, test, valid, self'), g') /\
    csr_shape train = shape small_matrix /\ csr_shape test = shape small_matrix /\
    csr_shape valid = shape small_matrix /\
    csr_entries train ++ csr_entries test ++ csr_entries valid
      ≡ₚ coo_entries (remove_users small_matrix 4) /\
    Forall (fun e : entry => ~ (e.2 == 0)%Q)
           (csr_entries train ++ csr_entries test ++ csr_entries valid).
Proof.
  split; [vm_compute; reflexivity|].
  apply (split_urm_partitions_filtered (list nat) tape_choice
           tape_choice_draws tape_choice_accepts sample_reader small_matrix).
  - discriminate.
  - apply is_probability_vectorb_correct. reflexivity.
Defined.


Lemma build_URM_no_removal_witness :
  exists M,
    build_URM_arrays argsort_merge six_rows six_cols six_data false 0
      = Ok (M, dict_zip_range (np_unique six_rows), dict_zip_range (np_unique six_cols)) /\
    coo_wf M /\
    shape M = (length (np_unique six_rows), length (np_unique six_cols)) /\
    data M = six_data /\
    Forall2 (fun u i => np_unique six_rows !! i = Some u) six_rows (row M) /\
    Forall2 (fun c j => np_unique six_cols !! j = Some c) six_cols (col M).
Proof.
  apply (build_URM_no_removal argsort_merge six_rows six_cols six_data false 0).
  - reflexivity.
  - reflexivity.
  - discriminate.
Defined.

Lemma build_URM_indices_tight_witness :
  exists M r2u c2i,
    build_URM_arrays argsort_merge six_rows six_cols six_data false (2 # 5)
      = Ok (M, r2u, c2i) /\
    shape M = (2, 2) /\
    coo_wf M /\
    Forall (fun i => i < (shape M).1) (row M) /\
    Forall (fun j => j < (shape M).2) (col M) /\
    (forall i, i < (shape M).1 -> i ∈ row M) /\
    (forall j, j < (shape M).2 -> j ∈ col M).
Proof.
  assert (Hrun : exists M r2u c2i,
             build_URM_arrays argsort_merge six_rows six_cols six_data false (2 # 5)
               = Ok (M, r2u, c2i) /\ shape M = (2, 2))
    by (eexists _, _, _; split; vm_compute; reflexivity).
  destruct Hrun as (M & r2u & c2i & Hrun & Hshape).
  exists M, r2u, c2i. split; [exact Hrun|]. split; [exact Hshape|].
  apply (build_URM_indices_tight argsort_merge argsort_merge_perm
           six_rows six_cols six_data false (2 # 5) M r2u c2i).
  - reflexivity.
  - reflexivity.
  - by apply (bool_decide_unpack _).
  - exact Hrun.
Defined.

Lemma split_urm_then_getters_witness :
  exists train test valid self' g',
    split_urm (list nat) tape_choice sample_reader (Some small_matrix)
              [3 # 5; 1 # 5; 1 # 5]%Q 1 true [0; 1; 2]
      = (Ok (train, test, valid, self'), g') /\
    get_URM_train self' false = Ok train /\
    get_URM_test self' false = Ok test /\
    get_URM_validation self' false = Ok valid /\
    get_URM_train self' true = Ok (csr_transpose train) /\
    get_URM_test self' true = Ok (csr_transpose test) /\
    get_URM_validation self' true = Ok (csr_transpose valid) /\
    URM self' = URM sample_reader /\
    Forall (fun C =>
              csr_transpose (csr_transpose C) = C /\
              csr_shape (csr_transpose C) = ((csr_shape C).2, (csr_shape C).1) /\
              StronglySorted coord_lt ((csr_entries (csr_transpose C)).*1) /\
              forall i j, (value_at (csr_entries (csr_transpose C)) (j, i)
                           == value_at (csr_entries C) (i, j))%Q)
           [train; test; valid].
Proof.
  assert (Hrun : exists train test valid self' g',
             split_urm (list nat) tape_choice sample_reader (Some small_matrix)
                       [3 # 5; 1 # 5; 1 # 5]%Q 1 true [0; 1; 2]
             = (Ok (train, test, valid, self'), g'))
    by (eexists _, _, _, _, _; vm_compute; reflexivity).
  destruct Hrun as (train & test & valid & self' & g' & Hrun).
  exists train, test, valid, self', g'. split; [exact Hrun|].
  exact (split_urm_then_getters (list nat) tape_choice sample_reader
           (Some small_matrix) _ _ _ _ g' train test valid self' Hrun).
Defined.


Lemma build_URM_order_independent_witness :
  exists M2,
    build_URM_arrays argsort_merge (sample_triples_reordered.*1.*1)
                     (sample_triples_reordered.*1.*2) (sample_triples_reordered.*2)
                     false 0
      = Ok (M2, dict_zip_range [1; 2]%Z, dict_zip_range [10; 20]%Z) /\
    shape M2 = shape small_matrix /\
    coo_entries M2 ≡ₚ coo_entries small_matrix /\
    (NoDup ((coo_entries small_matrix).*1) -> tocsr M2 = tocsr small_matrix).
Proof.
  apply (build_URM_order_independent argsort_merge sample_triples
           sample_triples_reordered false 0 small_matrix).
  - apply perm_swap.
  - vm_compute. reflexivity.
Defined.


(** User 1 has one interaction: with [min_ratings = 2] its entry goes. *)
Lemma remove_users_implicit_counts_witness :
  (forall i, (row_sum (tocsr implicit_matrix) i
              == inject_Z (Z.of_nat (count_occ Nat.eq_dec (row implicit_matrix) i)))%Q) /\
  (((1, 0), 1%Q) ∈ coo_entries (remove_users implicit_matrix 2) <->
   ((1, 0), 1%Q) ∈ canonical (coo_entries implicit_matrix) /\
   ~ (1 < (shape implicit_matrix).1 /\
      (Z.of_nat (count_occ Nat.eq_dec (row implicit_matrix) 1%nat) < 2)%Z)).
Proof.
  apply (remove_users_implicit_counts implicit_matrix 2 ((1, 0), 1%Q)).
  - split; reflexivity.
  - by repeat constructor.
Defined.
